(** * Email verifier: SMTP probe state machine and orchestrator

    Shallow embedding of [src/index.ts]: the format pre-check
    ([EMAIL_REGEX], [isEmailFormatValid], [getDomain]), MX resolution
    ([resolveMx]), the SMTP probe session ([smtpVerifyMailbox]) and the
    per-host loop of [verifyEmail]. *)

From Stdlib Require Import List ZArith NArith Bool Lia String Ascii.
From Stdlib Require Import Sorted Permutation.
Import ListNotations.

Open Scope Z_scope.

(** ** JavaScript strings

    A JavaScript string is a sequence of UTF-16 code units.  Regular
    expressions without the [u] flag, [split], [endsWith] and [length]
    all work on code units, so a string is a list of them. *)

Definition char := N.
Definition jsstring := list char.

(** String literals of the source are written [str "..."]. *)
Definition chr (a : ascii) : char := N_of_ascii a.
Definition str (s : string) : jsstring := List.map chr (list_ascii_of_string s).

Definition CR : char := 13%N.
Definition LF : char := 10%N.
(** The literal ["\r\n"]. *)
Definition CRLF : jsstring := [CR; LF].

Definition AT : char := chr "@".
Definition DOT : char := chr ".".

Module JsString.

(** [a === b] *)
Fixpoint eqb (a b : jsstring) : bool :=
  match a, b with
  | [], [] => true
  | x :: a', y :: b' => N.eqb x y && eqb a' b'
  | _, _ => false
  end.

(** [s.startsWith(p)] *)
Fixpoint startsWith (s p : jsstring) {struct p} : bool :=
  match p, s with
  | [], _ => true
  | _ :: _, [] => false
  | x :: p', c :: s' => N.eqb x c && startsWith s' p'
  end.

(** [s.endsWith(p)] *)
Definition endsWith (s p : jsstring) : bool :=
  startsWith (rev s) (rev p).

(** [s.split(sep)] for a non-empty separator [sep] (both call sites
    pass a non-empty literal).  [skip] counts the code units of a
    separator occurrence that are still to be dropped, [cur] is the
    piece being accumulated. *)
Fixpoint split_go (sep : jsstring) (skip : nat) (cur s : jsstring)
  : list jsstring :=
  match s with
  | [] => [cur]
  | c :: s' =>
      match skip with
      | S k => split_go sep k cur s'
      | O =>
          if startsWith s sep
          then cur :: split_go sep (pred (List.length sep)) [] s'
          else split_go sep O (cur ++ [c]) s'
      end
  end.

Definition split (s sep : jsstring) : list jsstring := split_go sep O [] s.

(** [arr[i]]; [None] is JavaScript's [undefined]. *)
Definition index {A} (arr : list A) (i : Z) : option A :=
  if i <? 0 then None else nth_error arr (Z.to_nat i).

End JsString.

(** ** Regular expressions

    The two patterns of the source are sequences of single-character
    atoms with the quantifiers [+] and [{n}], anchored at the start by
    [^].  The matcher is the backtracking one of ECMAScript: [+] is
    greedy and gives characters back one at a time. *)

Module Regex.

Inductive charset : Type :=
| Lit (c : char)                 (* a literal character, e.g. [@] or [\.] *)
| Space                          (* [\s] *)
| Digit                          (* [\d] *)
| Union (a b : charset)          (* [[ab]] *)
| Neg (a : charset).             (* [[^a]] *)

(** [\s]: ECMAScript WhiteSpace and LineTerminator code units. *)
Definition is_space (c : char) : bool :=
  ((9 <=? c) && (c <=? 13) || (c =? 32) || (c =? 160) || (c =? 5760)
   || (8192 <=? c) && (c <=? 8202) || (c =? 8232) || (c =? 8233)
   || (c =? 8239) || (c =? 8287) || (c =? 12288) || (c =? 65279))%N.

(** [\d]: the ASCII digits. *)
Definition is_digit (c : char) : bool := ((48 <=? c) && (c <=? 57))%N.

Fixpoint mem (cs : charset) (c : char) : bool :=
  match cs with
  | Lit x => N.eqb x c
  | Space => is_space c
  | Digit => is_digit c
  | Union a b => mem a c || mem b c
  | Neg a => negb (mem a c)
  end.

Inductive node : Type :=
| One (cs : charset)               (* one character of the set *)
| Many1 (cs : charset)             (* [cs+], greedy *)
| Times (n : nat) (cs : charset)   (* [cs{n}] *)
| EndOfInput.                      (* [$] *)

(** A pattern [/^n1 n2 ... nk/]. *)
Definition regex := list node.

(** [p+] followed by the continuation [k]: take one character, then
    first try to take more, and only if that fails go on with [k]. *)
Fixpoint many1 (p : char -> bool) (k : jsstring -> option jsstring)
  (s : jsstring) : option jsstring :=
  match s with
  | [] => None
  | c :: s' =>
      if p c then
        match many1 p k s' with
        | Some r => Some r
        | None => k s'
        end
      else None
  end.

Fixpoint times (n : nat) (p : char -> bool)
  (k : jsstring -> option jsstring) (s : jsstring) : option jsstring :=
  match n with
  | O => k s
  | S n' =>
      match s with
      | [] => None
      | c :: s' => if p c then times n' p k s' else None
      end
  end.

(** [exec r s] matches [r] at the start of [s]; on success it returns
    the part of [s] after the match. *)
Fixpoint exec (r : regex) (s : jsstring) : option jsstring :=
  match r with
  | [] => Some s
  | One cs :: r' =>
      match s with
      | [] => None
      | c :: s' => if mem cs c then exec r' s' else None
      end
  | Many1 cs :: r' => many1 (mem cs) (exec r') s
  | Times n cs :: r' => times n (mem cs) (exec r') s
  | EndOfInput :: r' =>
      match s with
      | [] => exec r' []
      | _ :: _ => None
      end
  end.

(** [r.test(s)] *)
Definition test (r : regex) (s : jsstring) : bool :=
  match exec r s with Some _ => true | None => false end.

(** The text matched by [s.match(r)]: element 0 of the match array,
    [None] when there is no match. *)
Definition matched (r : regex) (s : jsstring) : option jsstring :=
  match exec r s with
  | Some rest => Some (firstn (List.length s - List.length rest) s)
  | None => None
  end.

End Regex.

Import Regex.

(** ** Format pre-check *)

(** [/^[^\s@]+@[^\s@]+\.[^\s@]+$/] *)
Definition EMAIL_REGEX : regex :=
  [ Many1 (Neg (Union Space (Lit AT))); One (Lit AT);
    Many1 (Neg (Union Space (Lit AT))); One (Lit DOT);
    Many1 (Neg (Union Space (Lit AT))); EndOfInput ].

Definition isEmailFormatValid (email : jsstring) : bool :=
  test EMAIL_REGEX email.

(** [email.split("@")[1]]; [None] is [undefined]. *)
Definition getDomain (email : jsstring) : option jsstring :=
  JsString.index (JsString.split email [AT]) 1.

(** ** Reply codes *)

(** [parseInt(s, 10)] on a string that starts with decimal digits: the
    value of the longest prefix of digits; [None] is [NaN]. *)
Fixpoint parseInt_go (acc : Z) (s : jsstring) : Z :=
  match s with
  | [] => acc
  | c :: s' =>
      if is_digit c then parseInt_go (10 * acc + (Z.of_N c - 48)) s'
      else acc
  end.

Definition parseInt10 (s : jsstring) : option Z :=
  match s with
  | [] => None
  | c :: _ => if is_digit c then Some (parseInt_go 0 s) else None
  end.

(** [/^(\d{3})/]: the only group spans the whole match, so [m[1]] is
    the matched text. *)
Definition CODE_REGEX : regex := [ Times 3 Digit ].

(** [parseCode]; [None] is [undefined].  [m[1]] is always three digits,
    on which [parseInt] is never [NaN] (lemma [parseCode_spec]). *)
Definition parseCode (line : jsstring) : option Z :=
  match matched CODE_REGEX line with
  | Some g => parseInt10 g
  | None => None
  end.

(** ** The probe session *)

Definition SMTP_TIMEOUT_MS : Z := 15000.

(** Configuration read from the environment when the module loads:
    [SMTP_PORT] (default 25), [HELLO_DOMAIN] (default ["example.com"])
    and [PROBE_SENDER] (default ["verify@example.com"]). *)
Record Config : Type := {
  SMTP_PORT : Z;
  HELLO_DOMAIN : jsstring;
  PROBE_SENDER : jsstring
}.

Definition default_config : Config :=
  {| SMTP_PORT := 25;
     HELLO_DOMAIN := str "example.com";
     PROBE_SENDER := str "verify@example.com" |}.

Record SmtpResult : Type := {
  success : bool;
  code : option Z;
  message : option jsstring
}.

(** What a handler does to the outside, in program order. *)
Inductive Call : Type :=
| SocketWrite (data : jsstring)          (* [socket.write(data)] *)
| SocketEnd (data : option jsstring)     (* [socket.end(data?)] *)
| SocketDestroy                          (* [socket.destroy()] *)
| ClearTimeout                           (* [clearTimeout(timeout)] *)
| Resolve (r : SmtpResult).              (* [resolve(r)] *)

(** The timer made by [setTimeout(..., delay)]: it runs its callback at
    most once, and never after [clearTimeout]. *)
Inductive Timer : Type :=
| Armed (delay : Z)
| Fired
| Cleared.

(** The variables the handlers close over ([dataBuffer], [step],
    [finished]), the timer, the state of the returned promise ([None]
    while pending) and the log of calls made so far. *)
Record Session : Type := {
  dataBuffer : jsstring;
  step : Z;
  finished : bool;
  timer : Timer;
  promise : option SmtpResult;
  calls : list Call
}.

(** What the socket and the timer deliver to the session. *)
Inductive Event : Type :=
| Timeout                      (* the timer expires *)
| Data (chunk : jsstring)      (* ["data"], with [chunk.toString()] *)
| Error (msg : jsstring)       (* ["error"], with [err.message] *)
| End.                         (* ["end"] *)

(** An exception thrown by a handler.  Nothing catches it: it ends the
    process. *)
Inductive Exn : Type :=
| TypeError.

Definition set_dataBuffer (b : jsstring) (s : Session) : Session :=
  {| dataBuffer := b; step := step s; finished := finished s;
     timer := timer s; promise := promise s; calls := calls s |}.

Definition set_step (n : Z) (s : Session) : Session :=
  {| dataBuffer := dataBuffer s; step := n; finished := finished s;
     timer := timer s; promise := promise s; calls := calls s |}.

Definition set_finished (b : bool) (s : Session) : Session :=
  {| dataBuffer := dataBuffer s; step := step s; finished := b;
     timer := timer s; promise := promise s; calls := calls s |}.

Definition log (c : Call) (s : Session) : Session :=
  {| dataBuffer := dataBuffer s; step := step s; finished := finished s;
     timer := timer s; promise := promise s; calls := calls s ++ [c] |}.

(** [clearTimeout(timeout)]: cancels the timer if it has not run. *)
Definition clearTimeout (s : Session) : Session :=
  log ClearTimeout
    {| dataBuffer := dataBuffer s; step := step s; finished := finished s;
       timer := match timer s with Armed _ => Cleared | t => t end;
       promise := promise s; calls := calls s |}.

(** [resolve(r)]: settles the promise if it is pending; a promise that
    is already settled keeps its value. *)
Definition resolve (r : SmtpResult) (s : Session) : Session :=
  log (Resolve r)
    {| dataBuffer := dataBuffer s; step := step s; finished := finished s;
       timer := timer s;
       promise := match promise s with Some v => Some v | None => Some r end;
       calls := calls s |}.

Definition socket_write (d : jsstring) : Session -> Session :=
  log (SocketWrite d).
Definition socket_end (d : option jsstring) : Session -> Session :=
  log (SocketEnd d).
Definition socket_destroy : Session -> Session := log SocketDestroy.

(** [send(cmd)] *)
Definition send (cmd : jsstring) : Session -> Session :=
  socket_write (cmd ++ CRLF).

(** Statements in sequence. *)
Notation "s |> f" := (f s) (at level 45, left associativity, only parsing).

(** [lines[lines.length - 1]] of the non-empty lines of the buffer;
    [None] is [undefined]. *)
Definition lastLineOf (buffer : jsstring) : option jsstring :=
  let lines :=
    filter (fun l => 0 <? Z.of_nat (List.length l))
      (JsString.split buffer CRLF) in
  JsString.index lines (Z.of_nat (List.length lines) - 1).

(** What [await] on the promise of a session observes. *)
Inductive Awaited : Type :=
| Settled (r : SmtpResult)
| Pending                      (* the promise never settles *)
| Uncaught (e : Exn).          (* a handler threw *)

Section Probe.

Variable cfg : Config.
Variable targetEmail : jsstring.

(** The callback given to [setTimeout]. *)
Definition on_timeout (s : Session) : Session :=
  if negb (finished s) then
    s |> set_finished true
      |> socket_destroy
      |> resolve {| success := false; code := None;
                    message := Some (str "Timeout") |}
  else s.

(** The failure branch shared by steps 0, 1 and 2. *)
Definition fail_step (c : Z) (lastLine : jsstring) (s : Session) : Session :=
  s |> set_finished true
    |> clearTimeout
    |> socket_end (Some (str "QUIT" ++ CRLF))
    |> resolve {| success := false; code := Some c;
                  message := Some lastLine |}.

(** The ["data"] handler. *)
Definition on_data (chunk : jsstring) (s : Session) : Exn + Session :=
  let s := set_dataBuffer (dataBuffer s ++ chunk) s in
  if negb (JsString.endsWith (dataBuffer s) CRLF) then inr s
  else
    match lastLineOf (dataBuffer s) with
    | None =>
        (* [lastLine] is [undefined]: [line.match] throws *)
        inl TypeError
    | Some lastLine =>
        let code := parseCode lastLine in
        let s := set_dataBuffer [] s in
        match code with
        | None => inr s
        | Some code =>
            if step s =? 0 then
              if code >=? 400 then inr (fail_step code lastLine s)
              else
                inr (s |> send (str "HELO " ++ HELLO_DOMAIN cfg)
                       |> set_step 1)
            else if step s =? 1 then
              if code >=? 400 then inr (fail_step code lastLine s)
              else
                inr (s |> send (str "MAIL FROM:<" ++ PROBE_SENDER cfg
                                  ++ str ">")
                       |> set_step 2)
            else if step s =? 2 then
              if code >=? 400 then inr (fail_step code lastLine s)
              else
                inr (s |> send (str "RCPT TO:<" ++ targetEmail ++ str ">")
                       |> set_step 3)
            else if step s =? 3 then
              let s := s |> set_finished true
                         |> clearTimeout
                         |> send (str "QUIT") in
              if (code >=? 200) && (code <? 300) then
                inr (s |> socket_end None
                       |> resolve {| success := true; code := Some code;
                                     message := Some lastLine |})
              else if (code >=? 500) && (code <? 600) then
                inr (s |> socket_end None
                       |> resolve {| success := false; code := Some code;
                                     message := Some lastLine |})
              else
                inr (s |> socket_end None
                       |> resolve {| success := false; code := Some code;
                                     message := Some lastLine |})
            else inr s
        end
    end.

(** The command of the fixed sequence that follows the reply awaited at
    step [k]: [HELO] after the greeting, [MAIL FROM] after the reply to
    [HELO], [RCPT TO] after the reply to [MAIL FROM]. *)
Definition command_after_step (k : Z) : jsstring :=
  if k =? 0 then str "HELO " ++ HELLO_DOMAIN cfg
  else if k =? 1 then str "MAIL FROM:<" ++ PROBE_SENDER cfg ++ str ">"
  else str "RCPT TO:<" ++ targetEmail ++ str ">".

(** The ["error"] handler. *)
Definition on_error (msg : jsstring) (s : Session) : Session :=
  if finished s then s
  else
    s |> set_finished true
      |> clearTimeout
      |> resolve {| success := false; code := None; message := Some msg |}.

(** The ["end"] handler. *)
Definition on_end (s : Session) : Session :=
  if finished s then s
  else
    s |> set_finished true
      |> clearTimeout
      |> resolve {| success := false; code := None;
                    message := Some (str "Connection ended unexpectedly") |}.

(** One event.  The timer's callback runs only while the timer is
    armed. *)
Definition handle (e : Event) (s : Session) : Exn + Session :=
  match e with
  | Timeout =>
      match timer s with
      | Armed _ =>
          inr (on_timeout
                 {| dataBuffer := dataBuffer s; step := step s;
                    finished := finished s; timer := Fired;
                    promise := promise s; calls := calls s |})
      | _ => inr s
      end
  | Data chunk => on_data chunk s
  | Error msg => inr (on_error msg s)
  | End => inr (on_end s)
  end.

(** Events in order, until a handler throws. *)
Fixpoint run (evs : list Event) (s : Session) : Exn + Session :=
  match evs with
  | [] => inr s
  | e :: evs' =>
      match handle e s with
      | inl x => inl x
      | inr s' => run evs' s'
      end
  end.

(** The state when the executor of [new Promise] returns: the socket
    is connecting, the timer is armed, nothing was received. *)
Definition session0 : Session :=
  {| dataBuffer := []; step := 0; finished := false;
     timer := Armed SMTP_TIMEOUT_MS; promise := None; calls := [] |}.

(** [smtpVerifyMailbox(mxHost, targetEmail)] against a connection on
    which the events [evs] happen, in that order; a timer that is
    still armed after them expires. *)
Definition smtpVerifyMailbox (evs : list Event) : Awaited :=
  match run (evs ++ [Timeout]) session0 with
  | inl e => Uncaught e
  | inr s =>
      match promise s with
      | Some r => Settled r
      | None => Pending
      end
  end.

End Probe.

(** Whether the timer can still expire. *)
Definition armed (s : Session) : bool :=
  match timer s with
  | Armed _ => true
  | _ => false
  end.

(** What holds of every state a session reaches: [finished] is only set
    together with a resolution, and the timer is armed exactly as long
    as the promise is pending. *)
Definition session_inv (s : Session) : Prop :=
  (finished s = true -> promise s <> None) /\
  (promise s = None <-> armed s = true).

(** A reply line as one chunk: the text and its line end. *)
Definition reply (text : string) : Event := Data (str text ++ CRLF).

(** ** MX resolution *)

Record MxRecord : Type := {
  exchange : jsstring;
  priority : Z
}.

(** An [Error] object: its [message] and what [String(err)] gives. *)
Record JsError : Type := {
  err_message : jsstring;
  err_string : jsstring
}.

(** The arguments [dns.resolveMx] passes to its callback. *)
Inductive DnsReply : Type :=
| DnsFailure (err : JsError)
| DnsAddresses (addresses : option (list MxRecord)).

(** The comparator [(a, b) => a.priority - b.priority].  Priorities are
    the 16-bit preference values of the MX records, so the subtraction
    is exact. *)
Definition compareFn (a b : MxRecord) : Z := priority a - priority b.

(** [addresses.sort(compareFn)].  [Array.prototype.sort] is stable and
    [compareFn] is a consistent comparator, which fixes the result; it
    is computed here by insertion. *)
Fixpoint sort_insert (x : MxRecord) (l : list MxRecord) : list MxRecord :=
  match l with
  | [] => [x]
  | y :: l' =>
      if compareFn x y <=? 0 then x :: l else y :: sort_insert x l'
  end.

Fixpoint Array_sort (l : list MxRecord) : list MxRecord :=
  match l with
  | [] => []
  | x :: l' => sort_insert x (Array_sort l')
  end.

(** [resolveMx(domain)], given what the resolver calls back with:
    [inl err] is a rejected promise. *)
Definition resolveMx (reply : DnsReply) : JsError + list MxRecord :=
  match reply with
  | DnsFailure err => inl err
  | DnsAddresses None
  | DnsAddresses (Some []) =>
      inl {| err_message := str "No MX records";
             err_string := str "Error: No MX records" |}
  | DnsAddresses (Some addresses) => inr (Array_sort addresses)
  end.

(** ** The orchestrator *)

Inductive Status : Type :=
| invalid_format | no_mx | deliverable | undeliverable | unknown.

(** The object [verifyEmail] returns; a field that the object does not
    have is [None]. *)
Record VerifyResult : Type := {
  status : Status;
  valid : bool;
  smtpHostTried : option jsstring;
  smtpCode : option Z;
  smtpMessage : option jsstring;
  reason : option jsstring
}.

(** How a call of [verifyEmail] ends. *)
Inductive Outcome : Type :=
| Returns (r : VerifyResult)
| Hangs                         (* awaits a promise that never settles *)
| Crashes (e : Exn).            (* a socket handler threw *)

(** The network as one request sees it: the answer of the resolver for
    a domain, and the events on the [n]-th connection of the request,
    opened to [host] on [port]. *)
Record Network : Type := {
  dns_reply : jsstring -> DnsReply;
  smtp_events : nat -> jsstring -> Z -> list Event
}.

Inductive NetAccess : Type :=
| DnsQuery (domain : jsstring)            (* [dns.resolveMx(domain, ...)] *)
| Connect (port : Z) (host : jsstring).
    (* [net.createConnection(port, host)] *)

(** [result.code && result.code >= lo && result.code < hi] *)
Definition code_within (lo hi : Z) (c : option Z) : bool :=
  match c with
  | Some v => negb (v =? 0) && (v >=? lo) && (v <? hi)
  | None => false
  end.

(** [err?.message || String(err)] *)
Definition error_text (err : JsError) : jsstring :=
  match err_message err with
  | [] => err_string err
  | m => m
  end.

(** The message of the [TypeError] that [dns.resolveMx] throws when the
    name is [undefined]. *)
Definition INVALID_NAME : jsstring :=
  str "The " ++ [34%N] ++ str "name" ++ [34%N]
    ++ str " argument must be of type string. Received undefined".

Section Verify.

Variable cfg : Config.
Variable net : Network.

(** The [for] loop of [verifyEmail] over what is left of [mxRecords],
    [n] connections having been made.  The configured port is taken to
    be one that [net.createConnection] accepts ([port_accepted]). *)
Fixpoint probeLoop (email : jsstring) (n : nat) (mxRecords : list MxRecord)
  : Outcome * list NetAccess :=
  match mxRecords with
  | [] =>
      (Returns
         {| status := unknown; valid := false;
            smtpHostTried := None; smtpCode := None; smtpMessage := None;
            reason := Some (str
              "All MX hosts returned temporary or ambiguous responses") |},
       [])
  | mx :: rest =>
      let host := exchange mx in
      let access := Connect (SMTP_PORT cfg) host in
      match smtpVerifyMailbox cfg email
              (smtp_events net n host (SMTP_PORT cfg)) with
      | Uncaught e => (Crashes e, [access])
      | Pending => (Hangs, [access])
      | Settled result =>
          if success result && code_within 200 300 (code result) then
            (Returns
               {| status := deliverable; valid := true;
                  smtpHostTried := Some host; smtpCode := code result;
                  smtpMessage := message result; reason := None |},
             [access])
          else if code_within 500 600 (code result) then
            (Returns
               {| status := undeliverable; valid := false;
                  smtpHostTried := Some host; smtpCode := code result;
                  smtpMessage := message result; reason := None |},
             [access])
          else
            let (o, l) := probeLoop email (S n) rest in
            (o, access :: l)
      end
  end.

(** [verifyEmail(email)]: how it ends, and the network accesses it
    made, in order. *)
Definition verifyEmail (email : jsstring) : Outcome * list NetAccess :=
  if negb (isEmailFormatValid email) then
    (Returns
       {| status := invalid_format; valid := false;
          smtpHostTried := None; smtpCode := None; smtpMessage := None;
          reason := Some (str "Invalid email syntax") |},
     [])
  else
    match getDomain email with
    | None =>
        (* [dns.resolveMx(undefined, ...)] throws in the executor of
           [resolveMx]; the promise rejects before any query *)
        (Returns
           {| status := no_mx; valid := false;
              smtpHostTried := None; smtpCode := None; smtpMessage := None;
              reason := Some (str "Domain has no MX: " ++ INVALID_NAME) |},
         [])
    | Some domain =>
        match resolveMx (dns_reply net domain) with
        | inl err =>
            (Returns
               {| status := no_mx; valid := false;
                  smtpHostTried := None; smtpCode := None;
                  smtpMessage := None;
                  reason := Some (str "Domain has no MX: "
                                    ++ error_text err) |},
             [DnsQuery domain])
        | inr mxRecords =>
            let (o, l) := probeLoop email O mxRecords in
            (o, DnsQuery domain :: l)
        end
    end.

(** The connection the loop opens for the record [mx]. *)
Definition connect (mx : MxRecord) : NetAccess :=
  Connect (SMTP_PORT cfg) (exchange mx).

(** What the probe of [mx] resolves to when it is the [n]-th connection
    of the request. *)
Definition session_of (email : jsstring) (n : nat) (mx : MxRecord) : Awaited :=
  smtpVerifyMailbox cfg email (smtp_events net n (exchange mx) (SMTP_PORT cfg)).

End Verify.

(** A success that carries a code of [200, 300). *)
Definition is_accepted (r : SmtpResult) : Prop :=
  success r = true /\ exists c, code r = Some c /\ 200 <= c < 300.

(** An outcome that carries a code of [500, 600). *)
Definition is_rejected (r : SmtpResult) : Prop :=
  exists c, code r = Some c /\ 500 <= c < 600.

(** A probe that resolved to neither. *)
Definition indefinite (a : Awaited) : Prop :=
  exists r, a = Settled r /\ ~ is_accepted r /\ ~ is_rejected r.

(** Ascending priorities. *)
Definition by_priority (a b : MxRecord) : Prop := priority a <= priority b.

(** Two mock exchangers: the preferred one answers the recipient with
    450, the other one with 550. *)
Definition mx1 : MxRecord :=
  {| exchange := str "mx1.example.org"; priority := 10 |}.
Definition mx2 : MxRecord :=
  {| exchange := str "mx2.example.org"; priority := 20 |}.

Definition mock_net : Network :=
  {| dns_reply := fun _ => DnsAddresses (Some [mx2; mx1]);
     smtp_events := fun _ host _ =>
       if JsString.eqb host (exchange mx1)
       then [reply "220 mx1 ready"; reply "250 hello"; reply "250 sender ok";
             reply "450 mailbox busy"]
       else [reply "220 mx2 ready"; reply "250 hello"; reply "250 sender ok";
             reply "550 no such user"] |}.

(** ** Notions used in the statements *)

(** A character of [[^\s@]]. *)
Definition addr_char (c : char) : bool :=
  negb (is_space c || N.eqb AT c).

(** The value of a decimal digit. *)
Definition digit_value (c : char) : Z := Z.of_N c - 48.

(** The objects [verifyEmail] returns. *)
Definition deliverable_at (mx : MxRecord) (r : SmtpResult) : VerifyResult :=
  {| status := deliverable; valid := true;
     smtpHostTried := Some (exchange mx); smtpCode := code r;
     smtpMessage := message r; reason := None |}.

Definition undeliverable_at (mx : MxRecord) (r : SmtpResult) : VerifyResult :=
  {| status := undeliverable; valid := false;
     smtpHostTried := Some (exchange mx); smtpCode := code r;
     smtpMessage := message r; reason := None |}.

Definition all_ambiguous : VerifyResult :=
  {| status := unknown; valid := false;
     smtpHostTried := None; smtpCode := None; smtpMessage := None;
     reason := Some (str
       "All MX hosts returned temporary or ambiguous responses") |}.

Definition invalid_syntax : VerifyResult :=
  {| status := invalid_format; valid := false;
     smtpHostTried := None; smtpCode := None; smtpMessage := None;
     reason := Some (str "Invalid email syntax") |}.

(** The mailbox probed in the examples. *)
Definition probe_target : jsstring := str "user@example.org".

(** The state after the events [evs] of a session with the default
    configuration. *)
Definition after (evs : list Event) : Session :=
  match run default_config probe_target evs session0 with
  | inr s => s
  | inl _ => session0
  end.

(** A session that has sent [RCPT TO] and awaits the reply. *)
Definition awaiting_rcpt : Session :=
  after [reply "220 mx ready"; reply "250 hello"; reply "250 sender ok"].

(** A session that resolved on the reply to [RCPT TO]. *)
Definition resolved_accepted : Session :=
  after [reply "220 mx ready"; reply "250 hello"; reply "250 sender ok";
         reply "250 recipient ok"].

(** ** The HTTP handler *)

(** [s.trimStart()], [s.trimEnd()] and [s.trim()]: they strip the
    WhiteSpace and LineTerminator code units, the set of [\s]. *)
Fixpoint trimStart (s : jsstring) : jsstring :=
  match s with
  | [] => []
  | c :: s' => if is_space c then trimStart s' else s
  end.

Definition trimEnd (s : jsstring) : jsstring := rev (trimStart (rev s)).

Definition trim (s : jsstring) : jsstring := trimEnd (trimStart s).

(** The value of [req.body?.email], as far as
    [String(req.body?.email || "")] tells values apart. *)
Inductive EmailField : Type :=
| Absent                     (* [undefined], [null], [false], [0]: a falsy
                                value that is not a string *)
| Text (s : jsstring)        (* a string *)
| Other (text : jsstring)    (* another truthy value, [text] being what
                                [String] makes of it *)
| Unprintable (err : JsError).
                             (* a truthy value on which [String] throws
                                [err], e.g. an object whose own [toString]
                                is not a function *)

(** The JSON object sent back. *)
Inductive Body : Type :=
| ErrorBody (error : jsstring) (details : option jsstring)
| ResultBody (email : jsstring) (result : VerifyResult).
    (* [{ email, ...result }] *)

Record Response : Type := {
  statusCode : Z;
  body : Body
}.

(** How a request to [POST /verify] ends. *)
Inductive Handled : Type :=
| Responds (r : Response)
| NeverResponds                 (* [verifyEmail] hangs *)
| ProcessExits (e : Exn).       (* a socket handler threw *)

(** [String(req.body?.email || "")]; [inl err] is a thrown exception. *)
Definition email_text (field : EmailField) : JsError + jsstring :=
  match field with
  | Absent => inr []
  | Text s => inr s
  | Other text => inr text
  | Unprintable err => inl err
  end.

(** The handler of [POST /verify], with the network accesses of the
    request.  The configured port is taken to be one that
    [net.createConnection] accepts, as in [smtpVerifyMailbox]. *)
Definition post_verify (cfg : Config) (net : Network) (field : EmailField)
  : Handled * list NetAccess :=
  match email_text field with
  | inl err =>
      (Responds {| statusCode := 500;
                   body := ErrorBody (str "Internal error")
                             (Some (error_text err)) |},
       [])
  | inr text =>
      let email := trim text in
      match email with
      | [] =>
          (Responds {| statusCode := 400;
                       body := ErrorBody (str "Missing email field") None |},
           [])
      | _ :: _ =>
          match verifyEmail cfg net email with
          | (Returns result, l) =>
              (Responds {| statusCode := 200;
                           body := ResultBody email result |}, l)
          | (Hangs, l) => (NeverResponds, l)
          | (Crashes e, l) => (ProcessExits e, l)
          end
      end
  end.

(** ** Further notions used in the statements *)

(** [pieces.join(sep)] *)
Fixpoint Array_join (sep : jsstring) (pieces : list jsstring) : jsstring :=
  match pieces with
  | [] => []
  | [p] => p
  | p :: rest => p ++ sep ++ Array_join sep rest
  end.

(** [n] line ends in a row. *)
Fixpoint blank_lines (n : nat) : jsstring :=
  match n with
  | O => []
  | S n' => CRLF ++ blank_lines n'
  end.

(** The three commands of the handshake, as they are written. *)
Definition handshake (cfg : Config) (targetEmail : jsstring) : list jsstring :=
  [ command_after_step cfg targetEmail 0 ++ CRLF;
    command_after_step cfg targetEmail 1 ++ CRLF;
    command_after_step cfg targetEmail 2 ++ CRLF ].

(** The line [QUIT]. *)
Definition QUIT_LINE : jsstring := str "QUIT" ++ CRLF.

(** The calls a session may make at all. *)
Definition permitted_call (cfg : Config) (targetEmail : jsstring) (c : Call)
  : Prop :=
  match c with
  | SocketWrite d => In d (QUIT_LINE :: handshake cfg targetEmail)
  | SocketEnd None => True
  | SocketEnd (Some d) => d = QUIT_LINE
  | SocketDestroy => True
  | ClearTimeout => True
  | Resolve _ => True
  end.

(** A state some sequence of events leads to. *)
Definition reachable (cfg : Config) (targetEmail : jsstring) (s : Session)
  : Prop :=
  exists evs, run cfg targetEmail evs session0 = inr s.

(** The outcome the step-3 branch resolves with. *)
Definition rcpt_outcome (c : Z) (line : jsstring) : SmtpResult :=
  {| success := (c >=? 200) && (c <? 300);
     code := Some c; message := Some line |}.

(** What every outcome of a session looks like: without a code it is a
    non-success with a message; with a code, the message is a line that
    starts with that code, and it is a success exactly for a code of
    [200, 300). *)
Definition outcome_ok (r : SmtpResult) : Prop :=
  match code r with
  | None => success r = false /\ message r <> None
  | Some c =>
      exists line,
        message r = Some line /\ parseCode line = Some c /\
        success r = (200 <=? c) && (c <? 300)
  end.

(** The calls of a complete handshake that ends with the outcome [r]. *)
Definition full_dialogue (cfg : Config) (targetEmail : jsstring)
  (r : SmtpResult) : list Call :=
  List.map SocketWrite (handshake cfg targetEmail)
    ++ [ClearTimeout; SocketWrite QUIT_LINE; SocketEnd None; Resolve r].

(** What holds of the step, the call log and the outcome in every state
    a session reaches. *)
Definition session_wf (cfg : Config) (targetEmail : jsstring) (s : Session)
  : Prop :=
  0 <= step s <= 3 /\
  Forall (permitted_call cfg targetEmail) (calls s) /\
  match promise s with
  | None =>
      finished s = false /\
      calls s = List.map SocketWrite
                  (firstn (Z.to_nat (step s)) (handshake cfg targetEmail))
  | Some r =>
      finished s = true /\ outcome_ok r /\
      (success r = true ->
       exists rest, calls s = full_dialogue cfg targetEmail r ++ rest)
  end.

(** An event of a server that sends bytes but never ends a line. *)
Definition no_line_end (e : Event) : Prop :=
  match e with
  | Data chunk => ~ In LF chunk
  | _ => False
  end.

(** The outcome of a timeout. *)
Definition timeout_outcome : SmtpResult :=
  {| success := false; code := None; message := Some (str "Timeout") |}.

(** The object returned for a domain without mail exchanger. *)
Definition no_mx_result (text : jsstring) : VerifyResult :=
  {| status := no_mx; valid := false;
     smtpHostTried := None; smtpCode := None; smtpMessage := None;
     reason := Some (str "Domain has no MX: " ++ text) |}.

(** How the fields of a returned object go together: [valid] is true
    for [deliverable] only; [deliverable] and [undeliverable] come with
    a host, a code of their band and the reply line the code was read
    from, and without a reason; the other statuses come with a reason
    and without host, code or message. *)
Definition result_ok (r : VerifyResult) : Prop :=
  (valid r = true <-> status r = deliverable) /\
  match status r with
  | deliverable =>
      exists host c line,
        smtpHostTried r = Some host /\ smtpCode r = Some c /\
        smtpMessage r = Some line /\ parseCode line = Some c /\
        200 <= c < 300 /\ reason r = None
  | undeliverable =>
      exists host c line,
        smtpHostTried r = Some host /\ smtpCode r = Some c /\
        smtpMessage r = Some line /\ parseCode line = Some c /\
        500 <= c < 600 /\ reason r = None
  | _ =>
      smtpHostTried r = None /\ smtpCode r = None /\
      smtpMessage r = None /\ reason r <> None
  end.

(** A resolver that fails for every domain. *)
Definition dead_net : Network :=
  {| dns_reply := fun _ =>
       DnsFailure {| err_message := str "queryMx ENOTFOUND example.org";
                     err_string := str "Error: queryMx ENOTFOUND example.org" |};
     smtp_events := fun _ _ _ => [] |}.

(** A string of whitespace only. *)
Definition blank (s : jsstring) : Prop := forall c, In c s -> is_space c = true.

(** ** The connection, the port and the command lines *)



(** The ports [net.createConnection] accepts; for another port it
    throws, the promise of the probe rejects and [verifyEmail] throws,
    which [probeLoop] and [post_verify] leave out. *)
Definition port_accepted (port : Z) : bool :=
  (0 <=? port) && (port <? 65536).

(** A string without line end characters. *)
Definition line_end_free (s : jsstring) : Prop := ~ In CR s /\ ~ In LF s.

(** One line that holds one of the four commands and nothing else. *)
Definition command_line (d : jsstring) : Prop :=
  exists cmd,
    d = cmd ++ CRLF /\ line_end_free cmd /\
    (JsString.startsWith cmd (str "HELO ") = true \/
     JsString.startsWith cmd (str "MAIL FROM:<") = true \/
     JsString.startsWith cmd (str "RCPT TO:<") = true \/
     cmd = str "QUIT").

(** What holds of the answer to a request. *)
Definition answer_ok (cfg : Config) (net : Network) (field : EmailField)
  : Prop :=
  match post_verify cfg net field with
  | (Responds resp, l) =>
      (statusCode resp = 200 /\
       exists text c rest result,
         email_text field = inr text /\ trim text = c :: rest /\
         is_space c = false /\
         body resp = ResultBody (c :: rest) result /\
         verifyEmail cfg net (c :: rest) = (Returns result, l))
      \/ ((statusCode resp = 400 \/ statusCode resp = 500) /\ l = [])
  | (NeverResponds, _) => False
  | (ProcessExits _, l) => l <> []
  end.

(** Two exchangers of the same priority, in the order of the answer
    [[mx2; tie_first; tie_second]]. *)
Definition tie_first : MxRecord :=
  {| exchange := str "mxb.example.org"; priority := 10 |}.
Definition tie_second : MxRecord :=
  {| exchange := str "mxa.example.org"; priority := 10 |}.

(** * Properties *)

(** ** Strings and patterns *)

Lemma AT_val : AT = 64%N.
Proof. reflexivity. Qed.

Lemma DOT_val : DOT = 46%N.
Proof. reflexivity. Qed.

Lemma mem_addr_char (c : char) :
  mem (Neg (Union Space (Lit AT))) c = addr_char c.
Proof. reflexivity. Qed.

Lemma addr_char_not_at (l : jsstring) :
  forallb addr_char l = true -> ~ In AT l.
Proof.
  induction l as [|c l IH]; simpl; intros H; [tauto|].
  apply andb_true_iff in H as [Hc Hl].
  intros [->|Hin]; [|now apply IH].
  unfold addr_char in Hc. rewrite N.eqb_refl, orb_true_r in Hc. discriminate.
Qed.

Lemma addr_char_not_space (l : jsstring) :
  forallb addr_char l = true -> forall c, In c l -> is_space c = false.
Proof.
  induction l as [|x l IH]; simpl; intros H c Hin; [tauto|].
  apply andb_true_iff in H as [Hx Hl].
  destruct Hin as [->|Hin]; [|now apply IH].
  unfold addr_char in Hx. apply negb_true_iff, orb_false_iff in Hx. tauto.
Qed.

Section Many1.

Variable p : char -> bool.
Variable k : jsstring -> option jsstring.

(** A match of [p+ k] splits the input into a non-empty run of [p]
    and a rest that [k] matches. *)
Lemma many1_sound (s r : jsstring) :
  many1 p k s = Some r ->
  exists pre post,
    s = pre ++ post /\ pre <> [] /\ forallb p pre = true /\ k post = Some r.
Proof.
  revert r. induction s as [|c s IH]; simpl; intros r H; [discriminate|].
  destruct (p c) eqn:Hc; [|discriminate].
  destruct (many1 p k s) as [r'|] eqn:Hm.
  - injection H as <-.
    destruct (IH r' eq_refl) as (pre & post & -> & _ & Hp & Hk).
    exists (c :: pre), post. simpl. rewrite Hc, Hp. repeat split; congruence.
  - exists [c], s. simpl. rewrite Hc. repeat split; congruence.
Qed.

(** Conversely such a split makes [p+ k] match (greediness may choose
    another split). *)
Lemma many1_complete (pre post r : jsstring) :
  pre <> [] -> forallb p pre = true -> k post = Some r ->
  exists r', many1 p k (pre ++ post) = Some r'.
Proof.
  induction pre as [|c pre IH]; [congruence|].
  intros _ Hp Hk. simpl in Hp. apply andb_true_iff in Hp as [Hc Hp].
  simpl. rewrite Hc.
  destruct pre as [|c' pre].
  - simpl. destruct (many1 p k post) as [r'|]; eauto.
  - destruct (IH ltac:(congruence) Hp Hk) as [r' ->]. eauto.
Qed.

End Many1.

(** The strings [EMAIL_REGEX] accepts: [l @ a . b] with [l], [a] and [b]
    non-empty and free of whitespace and [@]. *)
Lemma isEmailFormatValid_spec (email : jsstring) :
  isEmailFormatValid email = true <->
  exists l a b,
    email = l ++ AT :: a ++ DOT :: b /\
    l <> [] /\ a <> [] /\ b <> [] /\
    forallb addr_char l = true /\ forallb addr_char a = true /\
    forallb addr_char b = true.
Proof.
  unfold isEmailFormatValid, test, EMAIL_REGEX. split.
  - destruct (exec _ email) as [r|] eqn:E; [intros _|discriminate].
    cbn [exec] in E.
    apply many1_sound in E as (l & s1 & -> & Hl & Hpl & E).
    destruct s1 as [|c s1]; [discriminate|].
    cbn [mem] in E. destruct (N.eqb AT c) eqn:Hc; [|discriminate].
    apply N.eqb_eq in Hc. subst c.
    apply many1_sound in E as (a & s2 & -> & Ha & Hpa & E).
    destruct s2 as [|c s2]; [discriminate|].
    destruct (N.eqb DOT c) eqn:Hc; [|discriminate].
    apply N.eqb_eq in Hc. subst c.
    apply many1_sound in E as (b & s3 & -> & Hb & Hpb & E).
    destruct s3; [|discriminate].
    exists l, a, b. rewrite app_nil_r. repeat split; assumption.
  - intros (l & a & b & -> & Hl & Ha & Hb & Hpl & Hpa & Hpb).
    cbn [exec].
    assert (E3 : exists r, many1 (mem (Neg (Union Space (Lit AT))))
                   (fun s => match s with [] => Some [] | _ :: _ => None end)
                   (b ++ []) = Some r).
    { eapply many1_complete; eauto. }
    destruct E3 as [r3 E3]. rewrite app_nil_r in E3.
    assert (E2 : exists r, many1 (mem (Neg (Union Space (Lit AT))))
                   (fun s => match s with
                             | [] => None
                             | c :: s' =>
                                 if N.eqb DOT c
                                 then many1 (mem (Neg (Union Space (Lit AT))))
                                        (fun s => match s with
                                                  | [] => Some []
                                                  | _ :: _ => None
                                                  end) s'
                                 else None
                             end)
                   (a ++ DOT :: b) = Some r).
    { eapply many1_complete; eauto; try (rewrite N.eqb_refl; exact E3). }
    destruct E2 as [r2 E2].
    edestruct (many1_complete (mem (Neg (Union Space (Lit AT))))) as [r1 E1];
      [exact Hl | exact Hpl | | cbn [mem] in E1 |- *; rewrite E1; reflexivity].
    cbn [mem]. rewrite N.eqb_refl. exact E2.
Qed.

(** [split] on a one-character separator. *)
Lemma split_go_absent (c : char) (s cur : jsstring) :
  ~ In c s -> JsString.split_go [c] O cur s = [cur ++ s].
Proof.
  revert cur. induction s as [|x s IH]; intros cur Hin; simpl.
  - now rewrite app_nil_r.
  - destruct (N.eqb c x) eqn:E.
    + apply N.eqb_eq in E. subst. exfalso. apply Hin. now left.
    + simpl. rewrite IH by (intros H; apply Hin; now right).
      now rewrite <- app_assoc.
Qed.

Lemma split_go_first (c : char) (l d cur : jsstring) :
  ~ In c l ->
  JsString.split_go [c] O cur (l ++ c :: d)
  = (cur ++ l) :: JsString.split_go [c] O [] d.
Proof.
  revert cur. induction l as [|x l IH]; intros cur Hin; simpl.
  - rewrite N.eqb_refl. simpl. now rewrite app_nil_r.
  - destruct (N.eqb c x) eqn:E.
    + apply N.eqb_eq in E. subst. exfalso. apply Hin. now left.
    + simpl. rewrite IH by (intros H; apply Hin; now right).
      now rewrite <- app_assoc.
Qed.

(** Without the separator [split] returns the whole string alone, so
    index 1 is out of bounds. *)
Lemma getDomain_no_at (email : jsstring) :
  ~ In AT email -> getDomain email = None.
Proof.
  intros H. unfold getDomain, JsString.split.
  now rewrite split_go_absent.
Qed.

Lemma getDomain_one_at (l d : jsstring) :
  ~ In AT l -> ~ In AT d -> getDomain (l ++ AT :: d) = Some d.
Proof.
  intros Hl Hd. unfold getDomain, JsString.split.
  rewrite split_go_first by assumption.
  now rewrite split_go_absent.
Qed.

Lemma count_occ_absent (c : char) (l : jsstring) :
  ~ In c l -> count_occ N.eq_dec l c = 0%nat.
Proof. apply count_occ_not_In. Qed.

(** What an accepted address looks like around its [@]. *)
Lemma valid_email_shape (email : jsstring) :
  isEmailFormatValid email = true ->
  exists l d,
    email = l ++ AT :: d /\ ~ In AT l /\ ~ In AT d /\
    d <> [] /\ In DOT d /\ (forall c, In c d -> is_space c = false).
Proof.
  intros H. apply isEmailFormatValid_spec in H
    as (l & a & b & -> & Hl & Ha & Hb & Hpl & Hpa & Hpb).
  exists l, (a ++ DOT :: b).
  assert (Hd : ~ In AT (a ++ DOT :: b)).
  { intros Hin. apply in_app_or in Hin as [Hin|[Hin|Hin]].
    - revert Hin. now apply addr_char_not_at.
    - discriminate Hin.
    - revert Hin. now apply addr_char_not_at. }
  repeat split.
  - now apply addr_char_not_at.
  - exact Hd.
  - destruct a; discriminate.
  - apply in_or_app. right. now left.
  - intros c Hin. apply in_app_or in Hin as [Hin|[<-|Hin]].
    + exact (addr_char_not_space a Hpa c Hin).
    + reflexivity.
    + exact (addr_char_not_space b Hpb c Hin).
Qed.

(** ** Reply codes *)

(** [parseCode] succeeds exactly on the lines that start with three
    digits, and returns their decimal value. *)
Lemma parseCode_spec (line : jsstring) (c : Z) :
  parseCode line = Some c <->
  exists d1 d2 d3 rest,
    line = d1 :: d2 :: d3 :: rest /\
    is_digit d1 = true /\ is_digit d2 = true /\ is_digit d3 = true /\
    c = 100 * digit_value d1 + 10 * digit_value d2 + digit_value d3.
Proof.
  unfold parseCode, matched, CODE_REGEX, digit_value.
  destruct line as [|d1 [|d2 [|d3 rest]]]; cbn [exec times mem].
  - split; [discriminate|]. intros (? & ? & ? & ? & H & _). discriminate.
  - split; [destruct (is_digit d1); discriminate|].
    intros (? & ? & ? & ? & H & _). discriminate.
  - split; [destruct (is_digit d1), (is_digit d2); discriminate|].
    intros (? & ? & ? & ? & H & _). discriminate.
  - destruct (is_digit d1) eqn:H1, (is_digit d2) eqn:H2, (is_digit d3) eqn:H3;
      try (split; [discriminate|];
           intros (? & ? & ? & ? & H & ? & ? & ? & _);
           injection H as <- <- <- <-; congruence).
    replace (List.length (d1 :: d2 :: d3 :: rest) - List.length rest)%nat
      with 3%nat by (cbn [List.length]; lia).
    cbn [firstn]. unfold parseInt10. rewrite H1.
    assert (E : parseInt_go 0 [d1; d2; d3]
                = 100 * (Z.of_N d1 - 48) + 10 * (Z.of_N d2 - 48)
                  + (Z.of_N d3 - 48)).
    { cbn [parseInt_go]. rewrite H1, H2, H3. lia. }
    rewrite E. clear E.
    split.
    + intros H. exists d1, d2, d3, rest.
      repeat split; try assumption. congruence.
    + intros (? & ? & ? & ? & H & _ & _ & _ & ->).
      injection H as <- <- <- <-. reflexivity.
Qed.

Lemma parseCode_range (line : jsstring) (c : Z) :
  parseCode line = Some c -> 0 <= c <= 999.
Proof.
  intros H. apply parseCode_spec in H
    as (d1 & d2 & d3 & rest & _ & H1 & H2 & H3 & ->).
  unfold is_digit, digit_value in *.
  apply andb_true_iff in H1 as [?%N.leb_le ?%N.leb_le].
  apply andb_true_iff in H2 as [?%N.leb_le ?%N.leb_le].
  apply andb_true_iff in H3 as [?%N.leb_le ?%N.leb_le].
  lia.
Qed.

(** ** Framing *)

Lemma startsWith_app (p s : jsstring) : JsString.startsWith (p ++ s) p = true.
Proof.
  induction p as [|x p IH]; cbn; [reflexivity|].
  now rewrite N.eqb_refl, IH.
Qed.

Lemma endsWith_app (s p : jsstring) : JsString.endsWith (s ++ p) p = true.
Proof.
  unfold JsString.endsWith. rewrite rev_app_distr. apply startsWith_app.
Qed.

Lemma split_go_line (line cur : jsstring) :
  ~ In CR line ->
  JsString.split_go CRLF O cur (line ++ CRLF) = [cur ++ line; []].
Proof.
  revert cur. induction line as [|x line IH]; intros cur Hin.
  - cbn. now rewrite app_nil_r.
  - cbn [app JsString.split_go JsString.startsWith CRLF].
    destruct (N.eqb CR x) eqn:E.
    + apply N.eqb_eq in E. subst. exfalso. apply Hin. now left.
    + cbn [andb]. fold CRLF. rewrite IH by (intros H; apply Hin; now right).
      now rewrite <- app_assoc.
Qed.

(** A reply of one line, received whole: the line is the last line of
    the buffer. *)
Lemma lastLineOf_single (line : jsstring) :
  line <> [] -> ~ In CR line ->
  JsString.endsWith (line ++ CRLF) CRLF = true /\
  lastLineOf (line ++ CRLF) = Some line.
Proof.
  intros Hne Hin. split; [apply endsWith_app|].
  unfold lastLineOf, JsString.split. rewrite split_go_line by assumption.
  destruct line as [|c line]; [congruence|]. reflexivity.
Qed.

(** ** The data handler, reply by reply *)

Section ProbeFacts.

Variable cfg : Config.
Variable targetEmail : jsstring.

(** A chunk that does not complete a line is only buffered. *)
Lemma on_data_buffers (chunk : jsstring) (s : Session) :
  JsString.endsWith (dataBuffer s ++ chunk) CRLF = false ->
  on_data cfg targetEmail chunk s
  = inr (set_dataBuffer (dataBuffer s ++ chunk) s).
Proof.
  intros H. unfold on_data. cbn [dataBuffer set_dataBuffer].
  now rewrite H.
Qed.

(** A buffer of line ends only has no last line, and the handler
    throws. *)
Lemma on_data_throws (chunk : jsstring) (s : Session) :
  JsString.endsWith (dataBuffer s ++ chunk) CRLF = true ->
  lastLineOf (dataBuffer s ++ chunk) = None ->
  on_data cfg targetEmail chunk s = inl TypeError.
Proof.
  intros H1 H2. unfold on_data. cbn [dataBuffer set_dataBuffer].
  now rewrite H1, H2.
Qed.

(** A last line without a code is dropped: the buffer is emptied and
    nothing else changes. *)
Lemma on_data_no_code (chunk line : jsstring) (s : Session) :
  JsString.endsWith (dataBuffer s ++ chunk) CRLF = true ->
  lastLineOf (dataBuffer s ++ chunk) = Some line ->
  parseCode line = None ->
  on_data cfg targetEmail chunk s = inr (set_dataBuffer [] s).
Proof.
  intros H1 H2 H3. unfold on_data. cbn [dataBuffer set_dataBuffer].
  now rewrite H1, H2, H3.
Qed.

Ltac framed H1 H2 H3 :=
  unfold on_data; cbn [dataBuffer set_dataBuffer];
  rewrite H1, H2, H3; cbn [step set_dataBuffer].

(** C2: at step 3 a framed reply whose last non-empty line carries the
    code [c] settles the pending promise in that very handler call: the
    outcome carries [c] and the line, it is a success exactly when
    [200 <= c < 300] (so a code in [500, 600) and any other code give a
    non-success), and the handler cancels the timer, writes [QUIT] and
    ends the socket before it resolves, without waiting for a reply. *)
Theorem rcpt_reply_decides (s : Session) (chunk line : jsstring) (c : Z) :
  step s = 3 ->
  promise s = None ->
  JsString.endsWith (dataBuffer s ++ chunk) CRLF = true ->
  lastLineOf (dataBuffer s ++ chunk) = Some line ->
  parseCode line = Some c ->
  exists s' r,
    on_data cfg targetEmail chunk s = inr s' /\
    promise s' = Some r /\
    code r = Some c /\ message r = Some line /\
    (200 <= c < 300 -> success r = true) /\
    (500 <= c < 600 -> success r = false) /\
    (~ 200 <= c < 300 -> success r = false) /\
    calls s' = calls s ++ [ClearTimeout; SocketWrite (str "QUIT" ++ CRLF);
                           SocketEnd None; Resolve r] /\
    finished s' = true /\
    (forall d, timer s' <> Armed d) /\
    step s' = 3.
Proof.
  intros Hstep Hp H1 H2 H3.
  exists (set_dataBuffer [] (set_dataBuffer (dataBuffer s ++ chunk) s)
          |> set_finished true |> clearTimeout |> send (str "QUIT")
          |> socket_end None
          |> resolve {| success := (c >=? 200) && (c <? 300);
                        code := Some c; message := Some line |}),
    {| success := (c >=? 200) && (c <? 300);
       code := Some c; message := Some line |}.
  split.
  { framed H1 H2 H3. rewrite Hstep. cbn [Z.eqb Pos.eqb].
    destruct ((c >=? 200) && (c <? 300)) eqn:E2; [reflexivity|].
    destruct ((c >=? 500) && (c <? 600)); reflexivity. }
  cbn. rewrite Hp, <- !app_assoc. cbn [app].
  rewrite Z.geb_leb.
  repeat split; try reflexivity; try assumption.
  - intros [? ?]. apply andb_true_iff. split; [apply Z.leb_le|apply Z.ltb_lt]; lia.
  - intros [? ?]. apply andb_false_iff. right. apply Z.ltb_ge. lia.
  - intros H. destruct (Z.leb_spec 200 c), (Z.ltb_spec c 300);
      try reflexivity. exfalso. apply H. lia.
  - intros d. destruct (timer s); discriminate.
Qed.

(** C5, as the code has it: at step 3 a framed reply whose last
    non-empty line does not start with three digits is dropped.  The
    handler empties the buffer and returns: the promise, the call log,
    the step, the [finished] flag and the timer are as before, so the
    session does not resolve on this reply. *)
Theorem malformed_rcpt_reply_ignored (s : Session) (chunk line : jsstring) :
  step s = 3 ->
  JsString.endsWith (dataBuffer s ++ chunk) CRLF = true ->
  lastLineOf (dataBuffer s ++ chunk) = Some line ->
  parseCode line = None ->
  exists s',
    on_data cfg targetEmail chunk s = inr s' /\
    promise s' = promise s /\ calls s' = calls s /\ step s' = 3 /\
    finished s' = finished s /\ timer s' = timer s /\ dataBuffer s' = [].
Proof.
  intros Hstep H1 H2 H3. exists (set_dataBuffer [] s). split.
  - now apply on_data_no_code with (line := line).
  - cbn. now rewrite Hstep.
Qed.

(** C6, as the code has it: at steps 0, 1 and 2 the next command of the
    sequence is written exactly when the parsed code is below 400 (every
    code of [200, 300), and also the codes below 200 and those of
    [300, 400)); the step then advances by one and nothing is resolved.
    For a code of 400 or more that handler call writes no command and
    leaves the step as it is. *)
Theorem next_command_sent_below_400
  (s : Session) (chunk line : jsstring) (c : Z) :
  0 <= step s <= 2 ->
  JsString.endsWith (dataBuffer s ++ chunk) CRLF = true ->
  lastLineOf (dataBuffer s ++ chunk) = Some line ->
  parseCode line = Some c ->
  exists s',
    on_data cfg targetEmail chunk s = inr s' /\
    (c < 400 ->
       calls s' = calls s ++ [SocketWrite (command_after_step cfg targetEmail
                                             (step s) ++ CRLF)] /\
       step s' = step s + 1 /\ promise s' = promise s /\
       finished s' = finished s /\ timer s' = timer s) /\
    (400 <= c ->
       (forall d, ~ In (SocketWrite d) (skipn (List.length (calls s)) (calls s'))) /\
       step s' = step s).
Proof.
  intros Hstep H1 H2 H3.
  assert (Hk : step s = 0 \/ step s = 1 \/ step s = 2) by lia.
  destruct (Z.ltb_spec c 400) as [Hc|Hc].
  - exists (set_dataBuffer [] (set_dataBuffer (dataBuffer s ++ chunk) s)
            |> send (command_after_step cfg targetEmail (step s))
            |> set_step (step s + 1)).
    split.
    + framed H1 H2 H3.
      replace (c >=? 400) with false
        by (symmetry; rewrite Z.geb_leb; apply Z.leb_gt; lia).
      destruct Hk as [->|[->| ->]]; reflexivity.
    + split; [intros _|lia]. cbn. repeat split.
  - exists (fail_step c line
              (set_dataBuffer [] (set_dataBuffer (dataBuffer s ++ chunk) s))).
    split.
    + framed H1 H2 H3.
      replace (c >=? 400) with true
        by (symmetry; rewrite Z.geb_leb; apply Z.leb_le; lia).
      destruct Hk as [->|[->| ->]]; reflexivity.
    + split; [lia|intros _]. cbn. split; [|reflexivity].
      rewrite <- !app_assoc. cbn [app].
      rewrite skipn_app, skipn_all, Nat.sub_diag. cbn.
      intros d [H|[H|[H|[]]]]; discriminate H.
Qed.


End ProbeFacts.

(** ** Sessions as a whole *)

Section SessionFacts.

Variable cfg : Config.
Variable targetEmail : jsstring.

Lemma session0_inv : session_inv session0.
Proof. split; [discriminate|]. split; reflexivity. Qed.

Ltac break_if :=
  match goal with
  | H : context [if ?b then _ else _] |- _ => destruct b eqn:?
  | H : context [match ?x with _ => _ end] |- _ => destruct x eqn:?
  end.

Lemma on_data_inv (chunk : jsstring) (s s' : Session) :
  session_inv s ->
  on_data cfg targetEmail chunk s = inr s' ->
  session_inv s'.
Proof.
  intros Hinv H. unfold on_data in H. cbn [dataBuffer set_dataBuffer step] in H.
  repeat break_if; try discriminate; injection H as <-;
    destruct Hinv as [Hf [Hp1 Hp2]];
    unfold session_inv, armed, fail_step in *; cbn in *;
    (split; [|split]); intros; try tauto; try congruence;
    destruct (promise s); try congruence; destruct (timer s); congruence.
Qed.

Lemma handle_inv (e : Event) (s s' : Session) :
  session_inv s ->
  handle cfg targetEmail e s = inr s' ->
  session_inv s'.
Proof.
  intros Hinv H. destruct e as [|chunk|msg|]; cbn [handle] in H.
  - destruct Hinv as [Hf [Hp1 Hp2]].
    unfold session_inv, armed, on_timeout in *.
    destruct (timer s) eqn:Ht; injection H as <-; cbn in *;
      try (rewrite Ht; tauto).
    destruct (finished s) eqn:Hfin; cbn.
    + exfalso. apply Hf; auto.
    + destruct (promise s); intuition congruence.
  - eapply on_data_inv; eauto.
  - injection H as <-. destruct Hinv as [Hf [Hp1 Hp2]].
    unfold session_inv, armed, on_error in *.
    destruct (finished s) eqn:Hfin; cbn; [rewrite Hfin; tauto|].
    repeat split; intros; try congruence;
      destruct (promise s); try congruence; destruct (timer s); congruence.
  - injection H as <-. destruct Hinv as [Hf [Hp1 Hp2]].
    unfold session_inv, armed, on_end in *.
    destruct (finished s) eqn:Hfin; cbn; [rewrite Hfin; tauto|].
    repeat split; intros; try congruence;
      destruct (promise s); try congruence; destruct (timer s); congruence.
Qed.

Lemma run_inv (evs : list Event) (s s' : Session) :
  session_inv s ->
  run cfg targetEmail evs s = inr s' ->
  session_inv s'.
Proof.
  revert s. induction evs as [|e evs IH]; intros s Hinv H; cbn [run] in H.
  - now injection H as <-.
  - destruct (handle cfg targetEmail e s) as [x|s1] eqn:He; [discriminate|].
    eapply IH; [|exact H]. eapply handle_inv; eauto.
Qed.

Lemma run_app (evs1 evs2 : list Event) (s : Session) :
  run cfg targetEmail (evs1 ++ evs2) s =
  match run cfg targetEmail evs1 s with
  | inl x => inl x
  | inr s' => run cfg targetEmail evs2 s'
  end.
Proof.
  revert s. induction evs1 as [|e evs1 IH]; intros s; cbn [run app].
  - reflexivity.
  - destruct (handle cfg targetEmail e s); [reflexivity|apply IH].
Qed.

(** Once the timer has expired or was cancelled it stays so. *)
Lemma timeout_disarms (s s' : Session) :
  handle cfg targetEmail Timeout s = inr s' -> armed s' = false.
Proof.
  cbn [handle]. unfold armed, on_timeout.
  destruct (timer s) eqn:Ht; intros H; injection H as <-; cbn;
    try (now rewrite Ht).
  destruct (finished s); reflexivity.
Qed.

(** A session whose handlers do not throw always settles its promise:
    [await] never hangs. *)
Lemma smtpVerifyMailbox_settles (evs : list Event) :
  smtpVerifyMailbox cfg targetEmail evs <> Pending.
Proof.
  unfold smtpVerifyMailbox. rewrite run_app.
  destruct (run cfg targetEmail evs session0) as [x|s] eqn:Hr; [discriminate|].
  cbn [run].
  destruct (handle cfg targetEmail Timeout s) as [x|s'] eqn:Ht; [discriminate|].
  assert (Hinv : session_inv s').
  { eapply handle_inv; [|exact Ht]. eapply run_inv; [apply session0_inv|exact Hr]. }
  apply timeout_disarms in Ht.
  destruct (promise s') eqn:Hp; [discriminate|].
  destruct Hinv as [_ [H _]]. rewrite (H Hp) in Ht. discriminate.
Qed.

(** A settled promise keeps its value whatever happens next. *)
Lemma settled_is_final (e : Event) (s s' : Session) (r : SmtpResult) :
  promise s = Some r ->
  handle cfg targetEmail e s = inr s' ->
  promise s' = Some r.
Proof.
  intros Hp H. destruct e as [|chunk|msg|]; cbn [handle] in H.
  - unfold on_timeout in H. destruct (timer s); injection H as <-; cbn;
      try assumption.
    destruct (finished s); cbn; now rewrite Hp.
  - unfold on_data in H. cbn [dataBuffer set_dataBuffer step] in H.
    repeat break_if; try discriminate; injection H as <-;
      unfold fail_step; cbn; now rewrite ?Hp.
  - injection H as <-. unfold on_error. destruct (finished s); cbn; now rewrite ?Hp.
  - injection H as <-. unfold on_end. destruct (finished s); cbn; now rewrite ?Hp.
Qed.

(** After a resolution the timer, ["error"] and ["end"] do nothing. *)
Lemma guarded_events_are_noops (e : Event) (s : Session) :
  session_inv s ->
  finished s = true ->
  (forall chunk, e <> Data chunk) ->
  handle cfg targetEmail e s = inr s.
Proof.
  intros [Hf [Hp1 Hp2]] Hfin Hd.
  destruct e as [|chunk|msg|]; cbn [handle].
  - unfold armed in *. destruct (timer s); try reflexivity.
    exfalso. apply (Hf Hfin). now apply Hp2.
  - now destruct (Hd chunk).
  - unfold on_error. now rewrite Hfin.
  - unfold on_end. now rewrite Hfin.
Qed.

(** The three kinds of network failure, while the promise is pending. *)
Lemma network_failures_resolve (s : Session) :
  session_inv s ->
  promise s = None ->
  (exists s', handle cfg targetEmail Timeout s = inr s' /\
     promise s' = Some {| success := false; code := None;
                          message := Some (str "Timeout") |} /\
     armed s' = false) /\
  (forall msg, exists s', handle cfg targetEmail (Error msg) s = inr s' /\
     promise s' = Some {| success := false; code := None;
                          message := Some msg |} /\
     armed s' = false) /\
  (exists s', handle cfg targetEmail End s = inr s' /\
     promise s' = Some {| success := false; code := None;
                          message := Some (str "Connection ended unexpectedly") |} /\
     armed s' = false).
Proof.
  intros [Hf [Hp1 Hp2]] Hp.
  assert (Hfin : finished s = false).
  { destruct (finished s); [|reflexivity]. now destruct (Hf eq_refl). }
  pose proof (Hp1 Hp) as Ha. unfold armed in Ha.
  destruct (timer s) as [d| |] eqn:Ht; try discriminate.
  repeat split.
  - eexists. cbn [handle]. rewrite Ht. unfold on_timeout. cbn [finished].
    rewrite Hfin. split; [reflexivity|]. unfold armed. cbn.
    rewrite Hp. split; reflexivity.
  - intros msg. eexists. cbn [handle]. unfold on_error. rewrite Hfin.
    split; [reflexivity|]. unfold armed. cbn.
    rewrite Hp, Ht. split; reflexivity.
  - eexists. cbn [handle]. unfold on_end. rewrite Hfin.
    split; [reflexivity|]. unfold armed. cbn.
    rewrite Hp, Ht. split; reflexivity.
Qed.

End SessionFacts.

(** ** Sorting the MX records *)

Lemma sort_insert_perm (x : MxRecord) (l : list MxRecord) :
  Permutation (x :: l) (sort_insert x l).
Proof.
  induction l as [|y l IH]; cbn [sort_insert]; [reflexivity|].
  destruct (compareFn x y <=? 0); [reflexivity|].
  rewrite perm_swap. now constructor.
Qed.

Lemma Array_sort_perm (l : list MxRecord) : Permutation l (Array_sort l).
Proof.
  induction l as [|x l IH]; cbn [Array_sort]; [constructor|].
  rewrite <- sort_insert_perm. now constructor.
Qed.

Lemma sort_insert_sorted (x : MxRecord) (l : list MxRecord) :
  StronglySorted by_priority l -> StronglySorted by_priority (sort_insert x l).
Proof.
  induction 1 as [|y l Hs IH Hy]; cbn [sort_insert].
  - repeat constructor.
  - unfold compareFn. destruct (Z.leb_spec (priority x - priority y) 0) as [Hle|Hgt].
    + constructor; [now constructor|].
      constructor; [unfold by_priority; lia|].
      eapply Forall_impl; [|exact Hy]. unfold by_priority. intros; lia.
    + constructor; [exact IH|].
      eapply Permutation_Forall; [apply sort_insert_perm|].
      constructor; [unfold by_priority; lia|exact Hy].
Qed.

Lemma Array_sort_sorted (l : list MxRecord) :
  StronglySorted by_priority (Array_sort l).
Proof.
  induction l as [|x l IH]; cbn [Array_sort]; [constructor|].
  now apply sort_insert_sorted.
Qed.

(** The sort is stable: records of one priority keep their order. *)
Lemma Array_sort_stable (p : Z) (l : list MxRecord) :
  filter (fun r => priority r =? p) (Array_sort l)
  = filter (fun r => priority r =? p) l.
Proof.
  induction l as [|x l IH]; cbn [Array_sort]; [reflexivity|].
  cbn [filter]. rewrite <- IH. clear IH.
  induction (Array_sort l) as [|y l' IH]; cbn [sort_insert filter]; [reflexivity|].
  unfold compareFn. destruct (Z.leb_spec (priority x - priority y) 0) as [Hle|Hgt].
  - reflexivity.
  - cbn [filter]. rewrite IH.
    destruct (Z.eqb_spec (priority x) p), (Z.eqb_spec (priority y) p);
      try reflexivity. lia.
Qed.

(** A sorted list is determined by its records of each priority, in
    order: every stable sort by priority computes [Array_sort]. *)
Lemma sorted_stable_unique (l1 l2 : list MxRecord) :
  StronglySorted by_priority l1 ->
  StronglySorted by_priority l2 ->
  (forall p, filter (fun r => priority r =? p) l1
             = filter (fun r => priority r =? p) l2) ->
  l1 = l2.
Proof.
  revert l2. induction l1 as [|x l1 IH]; intros l2 H1 H2 Hf.
  - destruct l2 as [|y l2]; [reflexivity|].
    specialize (Hf (priority y)). cbn in Hf.
    rewrite Z.eqb_refl in Hf. discriminate.
  - destruct l2 as [|y l2].
    { specialize (Hf (priority x)). cbn in Hf.
      rewrite Z.eqb_refl in Hf. discriminate. }
    apply StronglySorted_inv in H1 as [H1 Hx].
    apply StronglySorted_inv in H2 as [H2 Hy].
    assert (E : x = y).
    { destruct (Z.eq_dec (priority x) (priority y)) as [E|E].
      - specialize (Hf (priority x)). cbn in Hf.
        rewrite Z.eqb_refl in Hf.
        rewrite <- E, Z.eqb_refl in Hf. now injection Hf.
      - exfalso.
        assert (Hxin : In x (y :: l2)).
        { eapply proj1, filter_In. rewrite <- (Hf (priority x)).
          cbn. rewrite Z.eqb_refl. now left. }
        assert (Hyin : In y (x :: l1)).
        { eapply proj1, filter_In. rewrite (Hf (priority y)).
          cbn. rewrite Z.eqb_refl. now left. }
        destruct Hxin as [->|Hxin]; [congruence|].
        destruct Hyin as [->|Hyin]; [congruence|].
        rewrite Forall_forall in Hx, Hy.
        specialize (Hx y Hyin). specialize (Hy x Hxin).
        unfold by_priority in *. lia. }
    subst y. f_equal. apply IH; try assumption.
    intros p. specialize (Hf p). cbn in Hf.
    destruct (priority x =? p); [now injection Hf|assumption].
Qed.

Lemma stable_sort_is_Array_sort (l l' : list MxRecord) :
  StronglySorted by_priority l' ->
  (forall p, filter (fun r => priority r =? p) l'
             = filter (fun r => priority r =? p) l) ->
  l' = Array_sort l.
Proof.
  intros Hs Hf. apply sorted_stable_unique; [assumption| |].
  - apply Array_sort_sorted.
  - intros p. now rewrite Hf, Array_sort_stable.
Qed.

Lemma Array_sort_nonempty (l : list MxRecord) :
  l <> [] -> Array_sort l <> [].
Proof.
  intros Hl H. apply Hl. apply Permutation_nil.
  rewrite <- H. symmetry. apply Array_sort_perm.
Qed.

(** ** The loop over the hosts *)

Lemma accepted_iff (r : SmtpResult) :
  success r && code_within 200 300 (code r) = true <-> is_accepted r.
Proof.
  unfold is_accepted, code_within. destruct (success r), (code r) as [c|];
    cbn [andb];
    try (split; [discriminate|]; intros [H1 (c' & H2 & _)]; congruence).
  rewrite Z.geb_leb. split.
  - intros H. apply andb_true_iff in H as [H H3].
    apply andb_true_iff in H as [_ H2].
    apply Z.leb_le in H2. apply Z.ltb_lt in H3. eauto.
  - intros [_ (c' & [= <-] & H2 & H3)].
    apply andb_true_iff. split; [|now apply Z.ltb_lt].
    apply andb_true_iff. split; [|now apply Z.leb_le].
    apply negb_true_iff, Z.eqb_neq. lia.
Qed.

Lemma rejected_iff (r : SmtpResult) :
  code_within 500 600 (code r) = true <-> is_rejected r.
Proof.
  unfold is_rejected, code_within. destruct (code r) as [c|];
    try (split; [discriminate|]; intros (c' & H2 & _); congruence).
  rewrite Z.geb_leb. split.
  - intros H. apply andb_true_iff in H as [H H3].
    apply andb_true_iff in H as [_ H2].
    apply Z.leb_le in H2. apply Z.ltb_lt in H3. eauto.
  - intros (c' & [= <-] & H2 & H3).
    apply andb_true_iff. split; [|now apply Z.ltb_lt].
    apply andb_true_iff. split; [|now apply Z.leb_le].
    apply negb_true_iff, Z.eqb_neq. lia.
Qed.

Lemma accepted_not_rejected (r : SmtpResult) :
  is_accepted r -> ~ is_rejected r.
Proof.
  intros [_ (c & Hc & H)] (c' & Hc' & H'). rewrite Hc in Hc'.
  injection Hc' as <-. lia.
Qed.

Section LoopFacts.

Variable cfg : Config.
Variable net : Network.
Variable email : jsstring.

(** Hosts whose probes are not definitive are passed over, one
    connection each. *)
Lemma probeLoop_skips (pre rest : list MxRecord) (n : nat) :
  (forall i m, nth_error pre i = Some m ->
               indefinite (session_of cfg net email (n + i) m)) ->
  probeLoop cfg net email n (pre ++ rest) =
  (fst (probeLoop cfg net email (n + List.length pre) rest),
   List.map (connect cfg) pre
     ++ snd (probeLoop cfg net email (n + List.length pre) rest)).
Proof.
  revert n. induction pre as [|mx pre IH]; intros n H.
  - cbn [app List.length List.map]. rewrite Nat.add_0_r.
    now destruct (probeLoop cfg net email n rest).
  - cbn [app probeLoop].
    destruct (H O mx eq_refl) as (r & Hr & Ha & Hj).
    unfold session_of in Hr. rewrite Nat.add_0_r in Hr. rewrite Hr.
    destruct (success r && code_within 200 300 (code r)) eqn:E1.
    { exfalso. now apply Ha, accepted_iff. }
    destruct (code_within 500 600 (code r)) eqn:E2.
    { exfalso. now apply Hj, rejected_iff. }
    rewrite IH.
    + cbn [List.length List.map app fst snd]. now rewrite Nat.add_succ_r.
    + intros i m Hi. rewrite Nat.add_succ_l, <- Nat.add_succ_r. now apply H.
Qed.

(** The loop connects to an initial segment of the list, in order, and
    to at least its first host. *)
Lemma probeLoop_contacts_prefix (mxRecords : list MxRecord) (n : nat) :
  exists k,
    (k <= List.length mxRecords)%nat /\
    (mxRecords <> [] -> (1 <= k)%nat) /\
    snd (probeLoop cfg net email n mxRecords)
    = List.map (connect cfg) (firstn k mxRecords).
Proof.
  revert n. induction mxRecords as [|mx rest IH]; intros n.
  - exists O. cbn. repeat split; [lia|congruence].
  - cbn [probeLoop].
    destruct (smtpVerifyMailbox _ _ _) as [r| |e];
      try (exists 1%nat; cbn; repeat split; lia).
    destruct (success r && code_within 200 300 (code r));
      try (exists 1%nat; cbn; repeat split; lia).
    destruct (code_within 500 600 (code r));
      try (exists 1%nat; cbn; repeat split; lia).
    destruct (IH (S n)) as (k & Hk & _ & Hs).
    exists (S k). destruct (probeLoop cfg net email (S n) rest) as [o l].
    cbn in *. rewrite Hs. repeat split; lia.
Qed.

End LoopFacts.


(** An outcome without a code is neither. *)
Lemma codeless_outcome_skipped (r : SmtpResult) :
  code r = None -> ~ is_accepted r /\ ~ is_rejected r.
Proof.
  intros Hc. split.
  - intros [_ (c & H & _)]. congruence.
  - intros (c & H & _). congruence.
Qed.

(** ** Claims about [verifyEmail] *)

(** C3: the loop probes the resolved hosts in list order.  When the
    hosts before [mx] gave no definitive outcome and [mx] gives a
    success with a code of [200, 300), [verifyEmail] returns
    [deliverable] with that host, code and message; when [mx] gives an
    outcome with a code of [500, 600), it returns [undeliverable] with
    them; in both cases the connections made are those to the hosts up
    to [mx] and no later host is probed.  When no host gives a
    definitive outcome it returns [unknown] after one connection to
    each. *)
Theorem first_definitive_outcome_decides
  (cfg : Config) (net : Network) (email domain : jsstring)
  (mxRecords : list MxRecord) :
  isEmailFormatValid email = true ->
  getDomain email = Some domain ->
  resolveMx (dns_reply net domain) = inr mxRecords ->
  (forall pre mx post r,
     mxRecords = pre ++ mx :: post ->
     (forall i m, nth_error pre i = Some m ->
                  indefinite (session_of cfg net email i m)) ->
     session_of cfg net email (List.length pre) mx = Settled r ->
     (is_accepted r ->
      verifyEmail cfg net email =
      (Returns (deliverable_at mx r),
       DnsQuery domain :: List.map (connect cfg) (pre ++ [mx]))) /\
     (is_rejected r ->
      verifyEmail cfg net email =
      (Returns (undeliverable_at mx r),
       DnsQuery domain :: List.map (connect cfg) (pre ++ [mx])))) /\
  ((forall i m, nth_error mxRecords i = Some m ->
                indefinite (session_of cfg net email i m)) ->
   verifyEmail cfg net email =
   (Returns all_ambiguous,
    DnsQuery domain :: List.map (connect cfg) mxRecords)).
Proof.
  intros Hv Hd Hmx. unfold verifyEmail. rewrite Hv, Hd, Hmx. cbn [negb].
  split.
  - intros pre mx post r -> Hpre Hr.
    rewrite (probeLoop_skips cfg net email pre (mx :: post) O Hpre).
    cbn [Nat.add probeLoop]. unfold session_of in Hr. rewrite Hr.
    rewrite List.map_app. cbn [List.map].
    split; intros H.
    + apply accepted_iff in H. rewrite H. reflexivity.
    + destruct (success r && code_within 200 300 (code r)) eqn:E.
      { apply accepted_iff in E. now destruct (accepted_not_rejected r E). }
      apply rejected_iff in H. rewrite H. reflexivity.
  - intros Hall.
    rewrite <- (app_nil_r mxRecords) at 1.
    rewrite (probeLoop_skips cfg net email mxRecords [] O Hall).
    cbn. now rewrite app_nil_r.
Qed.

(** The loop always connects to the first host it is given. *)
Lemma probeLoop_head
  (cfg : Config) (net : Network) (email : jsstring)
  (mx : MxRecord) (rest : list MxRecord) (n : nat) :
  exists l, snd (probeLoop cfg net email n (mx :: rest)) = connect cfg mx :: l.
Proof.
  cbn [probeLoop].
  destruct (smtpVerifyMailbox _ _ _) as [r| |e]; try (now eexists).
  destruct (success r && code_within 200 300 (code r)); [now eexists|].
  destruct (code_within 500 600 (code r)); [now eexists|].
  destruct (probeLoop cfg net email (S n) rest) as [o l]. now eexists.
Qed.

(** After hosts whose probes are not definitive, the next host of the
    list is the next connection. *)
Lemma probeLoop_contacts_next
  (cfg : Config) (net : Network) (email : jsstring)
  (pre : list MxRecord) (mx : MxRecord) (post : list MxRecord) :
  (forall i m, nth_error pre i = Some m ->
               indefinite (session_of cfg net email i m)) ->
  firstn (S (List.length pre))
    (snd (probeLoop cfg net email O (pre ++ mx :: post)))
  = List.map (connect cfg) (pre ++ [mx]).
Proof.
  intros H.
  rewrite (probeLoop_skips cfg net email pre (mx :: post) O H).
  cbn [snd Nat.add].
  destruct (probeLoop_head cfg net email mx post (List.length pre))
    as [l ->].
  rewrite firstn_app, length_map.
  rewrite firstn_all2 by (rewrite length_map; lia).
  replace (S (List.length pre) - List.length pre)%nat with 1%nat by lia.
  now rewrite List.map_app.
Qed.

(** C8: [resolveMx] resolves with the records it was given, in ascending
    order of priority (priorities 20, 10, 30 come out as 10, 20, 30),
    and [verifyEmail] connects to the hosts in that order.  Its
    connections are an initial segment of the sorted list, starting
    with the first host; after hosts whose probes gave no definitive
    outcome the next connection is to the next host of the sorted
    list; and when no probe is definitive every host is connected to,
    in the sorted order.  For exchangers of priorities 20, 10 and 30
    the first connection is to the host of priority 10, the next one,
    when that probe is not definitive, to the host of priority 20, and
    the next one, when that is not definitive either, to the host of
    priority 30. *)
Theorem mx_hosts_contacted_by_priority (addresses : list MxRecord) :
  addresses <> [] ->
  exists mxRecords,
    resolveMx (DnsAddresses (Some addresses)) = inr mxRecords /\
    Permutation addresses mxRecords /\
    StronglySorted by_priority mxRecords /\
    (forall a b c,
       Array_sort [ {| exchange := a; priority := 20 |};
                    {| exchange := b; priority := 10 |};
                    {| exchange := c; priority := 30 |} ]
       = [ {| exchange := b; priority := 10 |};
           {| exchange := a; priority := 20 |};
           {| exchange := c; priority := 30 |} ]) /\
    (forall cfg net email domain,
       isEmailFormatValid email = true ->
       getDomain email = Some domain ->
       dns_reply net domain = DnsAddresses (Some addresses) ->
       (exists k,
          (1 <= k <= List.length mxRecords)%nat /\
          snd (verifyEmail cfg net email)
          = DnsQuery domain :: List.map (connect cfg) (firstn k mxRecords)) /\
       (forall pre mx post,
          mxRecords = pre ++ mx :: post ->
          (forall i m, nth_error pre i = Some m ->
                       indefinite (session_of cfg net email i m)) ->
          firstn (2 + List.length pre) (snd (verifyEmail cfg net email))
          = DnsQuery domain :: List.map (connect cfg) (pre ++ [mx])) /\
       ((forall i m, nth_error mxRecords i = Some m ->
                     indefinite (session_of cfg net email i m)) ->
        snd (verifyEmail cfg net email)
        = DnsQuery domain :: List.map (connect cfg) mxRecords)) /\
    (forall a b c cfg net email domain,
       let mx20 := {| exchange := a; priority := 20 |} in
       let mx10 := {| exchange := b; priority := 10 |} in
       let mx30 := {| exchange := c; priority := 30 |} in
       isEmailFormatValid email = true ->
       getDomain email = Some domain ->
       dns_reply net domain = DnsAddresses (Some [mx20; mx10; mx30]) ->
       firstn 2 (snd (verifyEmail cfg net email))
       = [DnsQuery domain; connect cfg mx10] /\
       (indefinite (session_of cfg net email 0 mx10) ->
        firstn 3 (snd (verifyEmail cfg net email))
        = [DnsQuery domain; connect cfg mx10; connect cfg mx20]) /\
       (indefinite (session_of cfg net email 0 mx10) ->
        indefinite (session_of cfg net email 1 mx20) ->
        firstn 4 (snd (verifyEmail cfg net email))
        = [DnsQuery domain; connect cfg mx10; connect cfg mx20;
           connect cfg mx30])).
Proof.
  intros Hne. exists (Array_sort addresses).
  assert (Hres : resolveMx (DnsAddresses (Some addresses))
                 = inr (Array_sort addresses))
    by (destruct addresses; [congruence|reflexivity]).
  split; [exact Hres|].
  split; [apply Array_sort_perm|].
  split; [apply Array_sort_sorted|].
  split; [reflexivity|].
  assert (Hlog : forall cfg net email domain mxs,
             isEmailFormatValid email = true ->
             getDomain email = Some domain ->
             resolveMx (dns_reply net domain) = inr mxs ->
             snd (verifyEmail cfg net email)
             = DnsQuery domain :: snd (probeLoop cfg net email O mxs)).
  { intros cfg net email domain mxs Hv Hd Hr.
    unfold verifyEmail. rewrite Hv, Hd, Hr. cbn [negb].
    now destruct (probeLoop cfg net email O mxs). }
  split.
  - intros cfg net email domain Hv Hd Hdns.
    rewrite <- Hdns in Hres.
    rewrite (Hlog cfg net email domain _ Hv Hd Hres).
    split; [|split].
    + destruct (probeLoop_contacts_prefix cfg net email
                  (Array_sort addresses) O) as (k & Hk & Hk1 & Hs).
      exists k. split.
      * split; [apply Hk1; now apply Array_sort_nonempty|exact Hk].
      * now rewrite Hs.
    + intros pre mx post E Hpre. rewrite E.
      change (2 + List.length pre)%nat with (S (S (List.length pre))).
      cbn [firstn]. f_equal. now apply probeLoop_contacts_next.
    + intros Hall. f_equal.
      rewrite <- (app_nil_r (Array_sort addresses)) at 1.
      rewrite (probeLoop_skips cfg net email (Array_sort addresses) [] O Hall).
      cbn. now rewrite app_nil_r.
  - intros a b c cfg net email domain mx20 mx10 mx30 Hv Hd Hdns.
    assert (Hr : resolveMx (dns_reply net domain) = inr [mx10; mx20; mx30])
      by (rewrite Hdns; reflexivity).
    rewrite (Hlog cfg net email domain _ Hv Hd Hr).
    split; [|split].
    + cbn [firstn]. f_equal.
      exact (probeLoop_contacts_next cfg net email [] mx10 [mx20; mx30]
               ltac:(intros [|i] m Hi; discriminate Hi)).
    + intros H0. cbn [firstn]. f_equal.
      apply (probeLoop_contacts_next cfg net email [mx10] mx20 [mx30]).
      intros [|[|i]] m Hi; try discriminate Hi.
      injection Hi as <-. exact H0.
    + intros H0 H1. cbn [firstn]. f_equal.
      apply (probeLoop_contacts_next cfg net email [mx10; mx20] mx30 []).
      intros [|[|[|i]]] m Hi; try discriminate Hi;
        injection Hi as <-; assumption.
Qed.

(** C9: an address without [@], or whose part after the first [@] has no
    dot, fails the format check: [verifyEmail] returns [invalid_format]
    with [valid] false and makes no network access at all. *)
Theorem malformed_address_rejected_offline
  (cfg : Config) (net : Network) (email : jsstring) :
  (~ In AT email \/ exists d, getDomain email = Some d /\ ~ In DOT d) ->
  verifyEmail cfg net email = (Returns invalid_syntax, []).
Proof.
  intros H. unfold verifyEmail.
  destruct (isEmailFormatValid email) eqn:Hv; [exfalso|reflexivity].
  apply valid_email_shape in Hv as (l & d & -> & Hl & Hd & _ & Hdot & _).
  destruct H as [H|(d' & Hd' & H)].
  - apply H, in_or_app. right. now left.
  - rewrite getDomain_one_at in Hd' by assumption.
    injection Hd' as <-. contradiction.
Qed.

(** C10: an address that passes the format check has exactly one [@],
    and [getDomain] is defined on it: the domain is not empty, has a
    dot and has no whitespace. *)
Theorem getDomain_defined_on_valid (email : jsstring) :
  isEmailFormatValid email = true ->
  count_occ N.eq_dec email AT = 1%nat /\
  exists d,
    getDomain email = Some d /\ d <> [] /\ In DOT d /\
    (forall c, In c d -> is_space c = false).
Proof.
  intros Hv.
  apply valid_email_shape in Hv as (l & d & -> & Hl & Hd & Hne & Hdot & Hsp).
  split.
  - rewrite count_occ_app, count_occ_cons_eq by reflexivity.
    rewrite !count_occ_absent by assumption. reflexivity.
  - exists d. split; [now apply getDomain_one_at|]. auto.
Qed.

(** ** Concrete sessions *)

(** C1: the data handler does not test [finished].  A session that has
    resolved with 250 at step 3 has written [QUIT]; when the reply to it
    arrives the handler runs step 3 again: it cancels the timer, writes
    [QUIT], ends the socket and calls [resolve] a second time, with a
    221 outcome.  Only the promise, which ignores the second call, keeps
    the first outcome. *)
Theorem data_after_resolution_runs_again :
  run default_config probe_target
    [reply "220 mx ready"; reply "250 hello"; reply "250 sender ok";
     reply "250 recipient ok"] session0
  = inr resolved_accepted /\
  finished resolved_accepted = true /\
  promise resolved_accepted =
    Some {| success := true; code := Some 250;
            message := Some (str "250 recipient ok") |} /\
  exists s',
    handle default_config probe_target (reply "221 bye") resolved_accepted
    = inr s' /\
    calls s' = calls resolved_accepted ++
               [ClearTimeout; SocketWrite (str "QUIT" ++ CRLF); SocketEnd None;
                Resolve {| success := true; code := Some 221;
                           message := Some (str "221 bye") |}] /\
    promise s' = promise resolved_accepted.
Proof.
  split; [vm_compute; reflexivity|].
  split; [reflexivity|]. split; [reflexivity|].
  eexists. split; [vm_compute; reflexivity|]. split; reflexivity.
Qed.

(** The missing test of [finished] at step 0: after a 421 greeting has
    resolved the session, the reply to the [QUIT] that was sent
    re-enters the data handler, which is still at step 0; it calls
    [socket.write] with [HELO] on the ended socket and moves to
    step 1. *)
Lemma helo_written_after_failed_greeting :
  run default_config probe_target
    [reply "421 service not available"; reply "221 bye"] session0
  = inr {| dataBuffer := []; step := 1; finished := true; timer := Cleared;
           promise := Some {| success := false; code := Some 421;
                              message := Some (str "421 service not available") |};
           calls := [ClearTimeout; SocketEnd (Some (str "QUIT" ++ CRLF));
                     Resolve {| success := false; code := Some 421;
                                message := Some (str "421 service not available") |};
                     SocketWrite (str "HELO example.com" ++ CRLF)] |}.
Proof. vm_compute. reflexivity. Qed.

(** C7: a chunk that is just a line end leaves no line to parse;
    [lastLine] is [undefined] and the data handler throws a [TypeError]
    that nothing catches.  The session produces no outcome. *)
Theorem blank_reply_throws :
  JsString.split CRLF CRLF = [ []; [] ] /\
  lastLineOf CRLF = None /\
  handle default_config probe_target (Data CRLF) session0 = inl TypeError /\
  smtpVerifyMailbox default_config probe_target [Data CRLF] = Uncaught TypeError.
Proof. repeat split; reflexivity. Qed.

(** C5 fails as stated: at step 3 a reply without a code resolves
    nothing, and if nothing else arrives the session ends as a timeout
    without a code, where a 450 reply resolves at once with its code. *)
Lemma malformed_rcpt_reply_not_resolved :
  run default_config probe_target
    [reply "220 mx ready"; reply "250 hello"; reply "250 sender ok"] session0
  = inr awaiting_rcpt /\
  step awaiting_rcpt = 3 /\
  promise awaiting_rcpt = None /\
  JsString.endsWith (dataBuffer awaiting_rcpt ++ str "oops" ++ CRLF) CRLF = true /\
  lastLineOf (dataBuffer awaiting_rcpt ++ str "oops" ++ CRLF) = Some (str "oops") /\
  parseCode (str "oops") = None /\
  (exists s',
     on_data default_config probe_target (str "oops" ++ CRLF) awaiting_rcpt
     = inr s' /\ promise s' = None /\ finished s' = false /\
     calls s' = calls awaiting_rcpt) /\
  smtpVerifyMailbox default_config probe_target
    [reply "220 mx ready"; reply "250 hello"; reply "250 sender ok";
     reply "oops"]
  = Settled {| success := false; code := None;
               message := Some (str "Timeout") |} /\
  smtpVerifyMailbox default_config probe_target
    [reply "220 mx ready"; reply "250 hello"; reply "250 sender ok";
     reply "450 mailbox busy"]
  = Settled {| success := false; code := Some 450;
               message := Some (str "450 mailbox busy") |}.
Proof.
  split; [vm_compute; reflexivity|].
  repeat split; try reflexivity.
  eexists. split; [vm_compute; reflexivity|]. repeat split; reflexivity.
Qed.

(** C6 fails as stated: 354 is outside [200, 300), and the greeting
    handler still writes [HELO]. *)
Lemma helo_written_after_354 :
  parseCode (str "354 go ahead") = Some 354 /\
  ~ 200 <= 354 < 300 /\
  exists s',
    on_data default_config probe_target (str "354 go ahead" ++ CRLF) session0
    = inr s' /\
    calls s' = [SocketWrite (str "HELO example.com" ++ CRLF)] /\
    step s' = 1.
Proof.
  split; [reflexivity|]. split; [lia|].
  eexists. split; [vm_compute; reflexivity|]. split; reflexivity.
Qed.

(** ** Instances *)

Lemma rcpt_reply_decides_witness :
  exists s' r,
    on_data default_config probe_target (str "250 recipient ok" ++ CRLF)
      awaiting_rcpt = inr s' /\
    promise s' = Some r /\ code r = Some 250 /\ success r = true.
Proof.
  destruct (rcpt_reply_decides default_config probe_target awaiting_rcpt
              (str "250 recipient ok" ++ CRLF) (str "250 recipient ok") 250)
    as (s' & r & H1 & H2 & H3 & _ & H5 & _); try reflexivity.
  exists s', r. repeat split; try assumption. apply H5. lia.
Defined.

Lemma malformed_rcpt_reply_ignored_witness :
  exists s',
    on_data default_config probe_target (str "oops" ++ CRLF) awaiting_rcpt
    = inr s' /\
    promise s' = promise awaiting_rcpt /\ calls s' = calls awaiting_rcpt.
Proof.
  destruct (malformed_rcpt_reply_ignored default_config probe_target
              awaiting_rcpt (str "oops" ++ CRLF) (str "oops"))
    as (s' & H1 & H2 & H3 & _); try reflexivity.
  exists s'. repeat split; assumption.
Defined.

Lemma next_command_sent_below_400_witness :
  exists s',
    on_data default_config probe_target (str "220 mx ready" ++ CRLF) session0
    = inr s' /\
    calls s' = [SocketWrite (str "HELO example.com" ++ CRLF)] /\
    step s' = 1.
Proof.
  destruct (next_command_sent_below_400 default_config probe_target session0
              (str "220 mx ready" ++ CRLF) (str "220 mx ready") 220)
    as (s' & H1 & H2 & _); try reflexivity.
  { cbn. lia. }
  destruct H2 as (H2 & H3 & _); [lia|].
  exists s'. repeat split; assumption.
Defined.

Lemma first_definitive_outcome_decides_witness :
  verifyEmail default_config mock_net probe_target =
  (Returns (undeliverable_at mx2
              {| success := false; code := Some 550;
                 message := Some (str "550 no such user") |}),
   [DnsQuery (str "example.org");
    Connect 25 (exchange mx1); Connect 25 (exchange mx2)]).
Proof.
  destruct (first_definitive_outcome_decides default_config mock_net
              probe_target (str "example.org") [mx1; mx2]
              eq_refl eq_refl eq_refl) as [H _].
  apply (H [mx1] mx2 []
           {| success := false; code := Some 550;
              message := Some (str "550 no such user") |} eq_refl).
  - intros i m Hi. destruct i as [|[|i]]; cbn in Hi; try discriminate.
    injection Hi as <-.
    exists {| success := false; code := Some 450;
              message := Some (str "450 mailbox busy") |}.
    split; [reflexivity|]. split.
    + intros [Hs _]. discriminate.
    + intros (c & Hc & Hr). injection Hc as <-. lia.
  - reflexivity.
  - exists 550. split; [reflexivity|lia].
Defined.

Lemma mx_hosts_contacted_by_priority_witness :
  exists mxRecords,
    resolveMx (DnsAddresses (Some [mx2; mx1])) = inr mxRecords /\
    StronglySorted by_priority mxRecords /\
    firstn 3 (snd (verifyEmail default_config mock_net probe_target))
    = [DnsQuery (str "example.org");
       Connect 25 (exchange mx1); Connect 25 (exchange mx2)].
Proof.
  destruct (mx_hosts_contacted_by_priority [mx2; mx1])
    as (mxRecords & H1 & _ & H3 & _ & H5 & _); [discriminate|].
  destruct (H5 default_config mock_net probe_target (str "example.org")
              eq_refl eq_refl eq_refl) as (_ & Hnext & _).
  exists mxRecords. split; [exact H1|]. split; [exact H3|].
  injection H1 as <-.
  apply (Hnext [mx1] mx2 [] eq_refl).
  intros i m Hi. destruct i as [|[|i]]; cbn in Hi; try discriminate.
  injection Hi as <-.
  exists {| success := false; code := Some 450;
            message := Some (str "450 mailbox busy") |}.
  split; [reflexivity|]. split.
  - intros [Hs _]. discriminate.
  - intros (c & Hc & Hr). injection Hc as <-. lia.
Defined.

Lemma malformed_address_rejected_offline_witness :
  verifyEmail default_config mock_net (str "nobody")
  = (Returns invalid_syntax, []) /\
  verifyEmail default_config mock_net (str "nobody@localhost")
  = (Returns invalid_syntax, []).
Proof.
  split; apply malformed_address_rejected_offline.
  - left. vm_compute. intros H.
    repeat (destruct H as [H|H]; [discriminate H|]). exact H.
  - right. exists (str "localhost"). split; [reflexivity|].
    vm_compute. intros H.
    repeat (destruct H as [H|H]; [discriminate H|]). exact H.
Defined.

Lemma getDomain_defined_on_valid_witness :
  count_occ N.eq_dec probe_target AT = 1%nat /\
  exists d, getDomain probe_target = Some d /\ d <> [] /\ In DOT d.
Proof.
  destruct (getDomain_defined_on_valid probe_target eq_refl)
    as (H1 & d & H2 & H3 & H4 & _).
  split; [exact H1|]. exists d. repeat split; assumption.
Defined.

(** * Further properties *)

(** ** The format check and the domain *)

Lemma split_at_first (c : char) (s : jsstring) :
  ~ In c s \/ exists l r, s = l ++ c :: r /\ ~ In c l.
Proof.
  induction s as [|x s IH].
  - left. intros [].
  - destruct (N.eq_dec c x) as [->|Hne].
    + right. exists [], s. split; [reflexivity|intros []].
    + destruct IH as [IH|(l & r & -> & Hl)].
      * left. intros [H|H]; [congruence|contradiction].
      * right. exists (x :: l), r. split; [reflexivity|].
        intros [H|H]; [congruence|contradiction].
Qed.

Lemma addr_char_iff (l : jsstring) :
  forallb addr_char l = true <->
  ~ In AT l /\ (forall c, In c l -> is_space c = false).
Proof.
  split.
  - intros H. split; [now apply addr_char_not_at|now apply addr_char_not_space].
  - intros [Hat Hsp]. apply forallb_forall. intros c Hc.
    unfold addr_char. rewrite (Hsp c Hc). cbn [orb].
    apply negb_true_iff, N.eqb_neq. intros <-. contradiction.
Qed.

Lemma count_occ_zero_absent (c : char) (l : jsstring) :
  count_occ N.eq_dec l c = 0%nat -> ~ In c l.
Proof. intros H. now apply (count_occ_not_In N.eq_dec). Qed.

Lemma email_format_spaces (email : jsstring) :
  isEmailFormatValid email = true ->
  forall c, In c email -> is_space c = false.
Proof.
  intros H. apply isEmailFormatValid_spec in H
    as (l & a & b & -> & _ & _ & _ & Hpl & Hpa & Hpb).
  apply addr_char_iff in Hpl as [_ Hl].
  apply addr_char_iff in Hpa as [_ Ha].
  apply addr_char_iff in Hpb as [_ Hb].
  intros c Hc. apply in_app_or in Hc as [Hc|[<-|Hc]]; auto.
  apply in_app_or in Hc as [Hc|[<-|Hc]]; auto.
Qed.

(** X1: the addresses the format check accepts are exactly the strings
    without whitespace that have one [@], something before it, and
    after it a dot with something on both sides. *)
Theorem email_format_characterised (email : jsstring) :
  isEmailFormatValid email = true <->
  (forall c, In c email -> is_space c = false) /\
  count_occ N.eq_dec email AT = 1%nat /\
  exists l a b,
    email = l ++ AT :: a ++ DOT :: b /\ l <> [] /\ a <> [] /\ b <> [].
Proof.
  rewrite isEmailFormatValid_spec. split.
  - intros (l & a & b & -> & Hl & Ha & Hb & Hpl & Hpa & Hpb).
    apply addr_char_iff in Hpl as [Hl1 Hl2].
    apply addr_char_iff in Hpa as [Ha1 Ha2].
    apply addr_char_iff in Hpb as [Hb1 Hb2].
    split; [|split].
    + intros c Hc. apply in_app_or in Hc as [Hc|[<-|Hc]]; auto.
      apply in_app_or in Hc as [Hc|[<-|Hc]]; auto.
    + rewrite count_occ_app, count_occ_cons_eq by reflexivity.
      rewrite count_occ_app, count_occ_cons_neq by discriminate.
      rewrite !count_occ_absent by assumption. reflexivity.
    + exists l, a, b. auto.
  - intros (Hsp & Hcount & l & a & b & -> & Hl & Ha & Hb).
    rewrite count_occ_app, count_occ_cons_eq in Hcount by reflexivity.
    rewrite count_occ_app, count_occ_cons_neq in Hcount by discriminate.
    assert (H0 : forall x y z : nat,
               (x + S (y + z) = 1 -> x = 0 /\ y = 0 /\ z = 0)%nat) by lia.
    apply H0 in Hcount as (Hl0 & Ha0 & Hb0). clear H0.
    exists l, a, b. repeat split; try assumption; apply addr_char_iff; split;
      try (now apply count_occ_zero_absent);
      intros c Hc; apply Hsp.
    + apply in_or_app. now left.
    + apply in_or_app. right. right. apply in_or_app. now left.
    + apply in_or_app. right. right. apply in_or_app. right. now right.
Qed.

(** X2: [getDomain] is [undefined] exactly on the strings without [@];
    otherwise it is the text between the first [@] and the next one, or
    the end of the string. *)
Theorem getDomain_spec (email : jsstring) :
  match getDomain email with
  | None => ~ In AT email
  | Some d =>
      ~ In AT d /\
      exists l, ~ In AT l /\
        (email = l ++ AT :: d \/ exists rest, email = l ++ AT :: d ++ AT :: rest)
  end.
Proof.
  destruct (split_at_first AT email) as [H|(l & r & -> & Hl)].
  - now rewrite getDomain_no_at.
  - destruct (split_at_first AT r) as [Hr|(d & rest & -> & Hd)].
    + rewrite getDomain_one_at by assumption. split; [assumption|].
      exists l. split; [assumption|now left].
    + unfold getDomain, JsString.split.
      rewrite split_go_first by assumption.
      rewrite split_go_first by assumption. cbn.
      split; [assumption|]. exists l. split; [assumption|]. right. now exists rest.
Qed.

(** ** Reply codes *)

Lemma three_digits_dec (line : jsstring) :
  (exists d1 d2 d3 rest,
     line = d1 :: d2 :: d3 :: rest /\
     is_digit d1 = true /\ is_digit d2 = true /\ is_digit d3 = true)
  \/ forallb is_digit (firstn 3 line) = false
  \/ (List.length line < 3)%nat.
Proof.
  destruct line as [|d1 [|d2 [|d3 rest]]]; cbn [List.length];
    try (right; right; lia).
  cbn [firstn forallb].
  destruct (is_digit d1) eqn:H1, (is_digit d2) eqn:H2, (is_digit d3) eqn:H3;
    try (right; left; reflexivity).
  left. exists d1, d2, d3, rest. auto.
Qed.

(** X3: [parseCode] reads the first three code units only.  It gives a
    code exactly when they are three ASCII digits, the code is their
    decimal value, between 0 and 999, and whatever follows them (a
    space, a dash, more digits) makes no difference. *)
Theorem parseCode_reads_three_digits (line : jsstring) :
  parseCode line = parseCode (firstn 3 line) /\
  match parseCode line with
  | Some c =>
      0 <= c <= 999 /\
      exists d1 d2 d3 rest,
        line = d1 :: d2 :: d3 :: rest /\
        is_digit d1 = true /\ is_digit d2 = true /\ is_digit d3 = true /\
        c = 100 * digit_value d1 + 10 * digit_value d2 + digit_value d3
  | None =>
      forallb is_digit (firstn 3 line) = false \/ (List.length line < 3)%nat
  end.
Proof.
  split.
  - destruct (parseCode line) as [c|] eqn:E.
    + apply parseCode_spec in E as (d1 & d2 & d3 & rest & -> & H1 & H2 & H3 & ->).
      symmetry. apply parseCode_spec. exists d1, d2, d3, []. auto.
    + destruct (parseCode (firstn 3 line)) as [c|] eqn:E'; [|reflexivity].
      apply parseCode_spec in E' as (d1 & d2 & d3 & rest & Hl & H1 & H2 & H3 & ->).
      destruct line as [|x1 [|x2 [|x3 r]]]; try discriminate.
      cbn [firstn] in Hl. injection Hl as -> -> -> _.
      rewrite <- E. apply parseCode_spec.
      exists d1, d2, d3, r. auto.
  - destruct (parseCode line) as [c|] eqn:E.
    + split; [now apply parseCode_range in E|now apply parseCode_spec].
    + destruct (three_digits_dec line)
        as [(d1 & d2 & d3 & rest & -> & H1 & H2 & H3)|H]; [|exact H].
      exfalso.
      assert (E' : parseCode (d1 :: d2 :: d3 :: rest)
                   = Some (100 * digit_value d1 + 10 * digit_value d2
                           + digit_value d3)).
      { apply parseCode_spec. exists d1, d2, d3, rest. auto. }
      congruence.
Qed.

(** ** Splitting and framing *)

Lemma startsWith_decompose (s p : jsstring) :
  JsString.startsWith s p = true ->
  s = p ++ skipn (List.length p) s.
Proof.
  revert s. induction p as [|x p IH]; intros s H; [reflexivity|].
  destruct s as [|c s]; [discriminate|]. cbn in H.
  apply andb_true_iff in H as [Hx Hp]. apply N.eqb_eq in Hx. subst c.
  cbn. f_equal. now apply IH.
Qed.

Lemma startsWith_length (s p : jsstring) :
  JsString.startsWith s p = true -> (List.length p <= List.length s)%nat.
Proof.
  intros H. apply startsWith_decompose in H.
  apply (f_equal (@List.length char)) in H. rewrite length_app in H. lia.
Qed.

Lemma split_go_nonempty (sep : jsstring) (k : nat) (cur s : jsstring) :
  JsString.split_go sep k cur s <> [].
Proof.
  revert k cur. induction s as [|c s IH]; intros k cur; cbn; [discriminate|].
  destruct k; [|apply IH].
  destruct (JsString.startsWith (c :: s) sep); [discriminate|apply IH].
Qed.

Lemma Array_join_cons (sep p : jsstring) (rest : list jsstring) :
  rest <> [] -> Array_join sep (p :: rest) = p ++ sep ++ Array_join sep rest.
Proof. destruct rest; [congruence|reflexivity]. Qed.

Lemma split_go_join (sep : jsstring) (s : jsstring) :
  sep <> [] ->
  forall k cur,
    (k <= List.length s)%nat ->
    Array_join sep (JsString.split_go sep k cur s) = cur ++ skipn k s.
Proof.
  intros Hsep. induction s as [|c s IH]; intros k cur Hk.
  - cbn in Hk. assert (k = O) by lia. subst. cbn. now rewrite app_nil_r.
  - cbn [JsString.split_go]. destruct k as [|k].
    + destruct (JsString.startsWith (c :: s) sep) eqn:E.
      * rewrite Array_join_cons by apply split_go_nonempty.
        pose proof (startsWith_length _ _ E) as Hlen.
        pose proof (startsWith_decompose _ _ E) as Hdec.
        destruct sep as [|x sep]; [congruence|].
        cbn [List.length pred] in *.
        rewrite IH by lia. cbn [app]. cbn [skipn] in Hdec.
        cbn [app] in Hdec. now rewrite <- Hdec.
      * rewrite IH by lia. cbn [skipn]. now rewrite <- app_assoc.
    + cbn [List.length] in Hk. rewrite IH by lia. reflexivity.
Qed.

(** X4: [split] loses nothing: joining the pieces with the separator
    gives the string back, for every non-empty separator. *)
Theorem split_join_roundtrip (s sep : jsstring) :
  sep <> [] ->
  Array_join sep (JsString.split s sep) = s.
Proof.
  intros Hsep. unfold JsString.split.
  now rewrite split_go_join by (assumption || lia).
Qed.

Lemma split_join_roundtrip_witness :
  Array_join CRLF (JsString.split (str "250-a" ++ CRLF ++ str "250 b" ++ CRLF) CRLF)
  = str "250-a" ++ CRLF ++ str "250 b" ++ CRLF.
Proof. apply split_join_roundtrip. discriminate. Defined.

Lemma startsWith_CRLF_app (c : char) (a b : jsstring) :
  JsString.startsWith (c :: a ++ CRLF ++ b) CRLF
  = JsString.startsWith (c :: a) CRLF.
Proof.
  destruct a as [|d a]; cbn.
  - now rewrite andb_false_r.
  - reflexivity.
Qed.

(** A line end is always a split point. *)
Lemma split_go_CRLF_app (a b : jsstring) :
  forall k cur,
    (k <= List.length a)%nat ->
    JsString.split_go CRLF k cur (a ++ CRLF ++ b)
    = JsString.split_go CRLF k cur a ++ JsString.split_go CRLF O [] b.
Proof.
  induction a as [|c a IH]; intros k cur Hk.
  - cbn in Hk. assert (k = O) by lia. subst. reflexivity.
  - cbn [app JsString.split_go]. destruct k as [|k].
    + rewrite startsWith_CRLF_app.
      destruct (JsString.startsWith (c :: a) CRLF) eqn:E.
      * pose proof (startsWith_length _ _ E) as Hlen.
        change (List.length CRLF) with 2%nat in Hlen.
        cbn [List.length] in Hlen. cbn [CRLF List.length pred].
        rewrite IH by lia. reflexivity.
      * now rewrite IH by lia.
    + cbn [List.length] in Hk. now rewrite IH by lia.
Qed.

Lemma split_CRLF_app (a b : jsstring) :
  JsString.split (a ++ CRLF ++ b) CRLF
  = JsString.split a CRLF ++ JsString.split b CRLF.
Proof. unfold JsString.split. apply split_go_CRLF_app. lia. Qed.

Lemma index_last {A} (l : list A) (x : A) :
  JsString.index (l ++ [x]) (Z.of_nat (List.length (l ++ [x])) - 1) = Some x.
Proof.
  unfold JsString.index. rewrite length_app. cbn [List.length].
  destruct (Z.ltb_spec (Z.of_nat (List.length l + 1) - 1) 0); [lia|].
  replace (Z.to_nat (Z.of_nat (List.length l + 1) - 1)) with (List.length l) by lia.
  now rewrite nth_error_app2, Nat.sub_diag by lia.
Qed.

(** X5: of a buffer of several lines only the last line counts.
    Whatever comes before, once the buffer ends with a non-empty line
    and its line end, that line is [lastLine]. *)
Theorem last_line_of_many (earlier line : jsstring) :
  line <> [] ->
  ~ In CR line ->
  JsString.endsWith (earlier ++ CRLF ++ line ++ CRLF) CRLF = true /\
  lastLineOf (earlier ++ CRLF ++ line ++ CRLF) = Some line.
Proof.
  intros Hne Hin. split.
  - rewrite !app_assoc. apply endsWith_app.
  - assert (E : filter (fun l => 0 <? Z.of_nat (List.length l))
                  (JsString.split (earlier ++ CRLF ++ line ++ CRLF) CRLF)
                = filter (fun l => 0 <? Z.of_nat (List.length l))
                    (JsString.split earlier CRLF) ++ [line]).
    { rewrite split_CRLF_app, filter_app. f_equal.
      unfold JsString.split. rewrite split_go_line by assumption.
      destruct line as [|c line]; [congruence|]. reflexivity. }
    unfold lastLineOf. cbv zeta. rewrite E. apply index_last.
Qed.

Lemma last_line_of_many_witness :
  lastLineOf (str "250-mx0 greets you" ++ CRLF ++ str "550 no such user" ++ CRLF)
  = Some (str "550 no such user").
Proof.
  apply (last_line_of_many (str "250-mx0 greets you") (str "550 no such user")).
  - discriminate.
  - vm_compute. intros H.
    repeat (destruct H as [H|H]; [discriminate H|]). exact H.
Defined.

(** ** Chunks *)

(** X6: buffering composes on the texts of the chunks.  When the text
    [a] of a chunk (what [chunk.toString()] gives) leaves the buffer
    without a final line end, handling it and then a chunk of text [b]
    leaves the session in the state that one chunk of text [a ++ b]
    leaves it in.  This is about the decoded texts: each chunk is
    decoded on its own, so it says nothing of bytes cut inside a
    character. *)
Theorem chunks_concatenate
  (cfg : Config) (targetEmail : jsstring) (s : Session) (a b : jsstring) :
  JsString.endsWith (dataBuffer s ++ a) CRLF = false ->
  run cfg targetEmail [Data a; Data b] s
  = run cfg targetEmail [Data (a ++ b)] s.
Proof.
  intros H. cbn [run handle]. rewrite on_data_buffers by assumption.
  unfold on_data. cbn [dataBuffer set_dataBuffer].
  rewrite <- app_assoc. reflexivity.
Qed.

Lemma chunks_concatenate_witness :
  run default_config probe_target [Data (str "220 mx "); Data (str "ready" ++ CRLF)]
    session0
  = run default_config probe_target [Data (str "220 mx " ++ str "ready" ++ CRLF)]
      session0.
Proof. apply chunks_concatenate. reflexivity. Defined.

Lemma blank_lines_snoc (n : nat) : blank_lines (S n) = blank_lines n ++ CRLF.
Proof.
  induction n as [|n IH]; [reflexivity|].
  change (blank_lines (S (S n))) with (CRLF ++ blank_lines (S n)).
  rewrite IH at 1. cbn [blank_lines]. now rewrite app_assoc.
Qed.

Lemma split_blank_lines (n : nat) :
  JsString.split (blank_lines n) CRLF = repeat [] (S n).
Proof.
  induction n as [|n IH]; [reflexivity|].
  change (blank_lines (S n)) with ([] ++ CRLF ++ blank_lines n).
  rewrite split_CRLF_app, IH. reflexivity.
Qed.

Lemma join_empty_pieces (pieces : list jsstring) :
  Forall (fun p => p = []) pieces ->
  Array_join CRLF pieces = blank_lines (pred (List.length pieces)).
Proof.
  induction 1 as [|p rest -> _ IH]; [reflexivity|].
  destruct rest as [|q rest]; [reflexivity|].
  rewrite Array_join_cons by discriminate. rewrite IH. reflexivity.
Qed.

Lemma index_last_defined {A} (l : list A) :
  l <> [] -> JsString.index l (Z.of_nat (List.length l) - 1) <> None.
Proof.
  intros Hne. destruct (exists_last Hne) as (l' & x & ->).
  rewrite index_last. discriminate.
Qed.

Lemma lastLineOf_None (b : jsstring) :
  lastLineOf b = None <-> exists n, b = blank_lines n.
Proof.
  split.
  - intros H. unfold lastLineOf in H. cbv zeta in H.
    destruct (filter (fun l : list char => 0 <? Z.of_nat (List.length l))
                (JsString.split b CRLF)) as [|p ps] eqn:E.
    + exists (pred (List.length (JsString.split b CRLF))).
      rewrite <- join_empty_pieces.
      * symmetry. unfold JsString.split.
        now rewrite split_go_join by (discriminate || lia).
      * apply Forall_forall. intros p Hp.
        destruct p as [|c p]; [reflexivity|]. exfalso.
        pose proof (proj2 (filter_In
                             (fun l : list char => 0 <? Z.of_nat (List.length l))
                             (c :: p) (JsString.split b CRLF))
                      (conj Hp eq_refl)) as Hin.
        rewrite E in Hin. destruct Hin.
    + exfalso. revert H. apply index_last_defined. discriminate.
  - intros [n ->]. unfold lastLineOf. cbv zeta. rewrite split_blank_lines.
    assert (E : forall m,
               filter (fun l : list char => 0 <? Z.of_nat (List.length l))
                 (repeat [] m) = []).
    { induction m as [|m IH]; [reflexivity|exact IH]. }
    now rewrite E.
Qed.

(** X7: the data handler throws exactly when the buffer, with the new
    chunk, is one or more line ends and nothing else; on every other
    input it returns. *)
Theorem data_handler_throws_iff
  (cfg : Config) (targetEmail : jsstring) (chunk : jsstring) (s : Session) :
  on_data cfg targetEmail chunk s = inl TypeError <->
  exists n, dataBuffer s ++ chunk = blank_lines (S n).
Proof.
  split.
  - intros H. unfold on_data in H. cbn [dataBuffer set_dataBuffer step] in H.
    destruct (JsString.endsWith (dataBuffer s ++ chunk) CRLF) eqn:E;
      [|discriminate].
    cbn [negb] in H.
    destruct (lastLineOf (dataBuffer s ++ chunk)) as [line|] eqn:L.
    + exfalso.
      repeat match type of H with
             | context [match ?x with _ => _ end] => destruct x
             end; discriminate.
    + apply lastLineOf_None in L as [n Hn]. destruct n as [|n].
      * rewrite Hn in E. discriminate.
      * now exists n.
  - intros [n Hn]. apply on_data_throws.
    + rewrite Hn, blank_lines_snoc. apply endsWith_app.
    + apply lastLineOf_None. now exists (S n).
Qed.

(** ** What a session keeps *)

Section SessionShape.

Variable cfg : Config.
Variable targetEmail : jsstring.

(** The ways the data handler returns. *)
Lemma on_data_cases (chunk : jsstring) (s s' : Session) :
  on_data cfg targetEmail chunk s = inr s' ->
  (exists b, s' = set_dataBuffer b s) \/
  (exists line c,
     parseCode line = Some c /\
     ((0 <= step s <= 2 /\ 400 <= c /\
       s' = fail_step c line (set_dataBuffer [] s)) \/
      (0 <= step s <= 2 /\ c < 400 /\
       s' = set_step (step s + 1)
              (send (command_after_step cfg targetEmail (step s))
                 (set_dataBuffer [] s))) \/
      (step s = 3 /\
       s' = resolve (rcpt_outcome c line)
              (socket_end None
                 (send (str "QUIT")
                    (clearTimeout (set_finished true (set_dataBuffer [] s)))))))).
Proof.
  unfold on_data. cbn [dataBuffer set_dataBuffer step].
  destruct (JsString.endsWith (dataBuffer s ++ chunk) CRLF); cbn [negb];
    [|intros [= <-]; left; eauto].
  destruct (lastLineOf (dataBuffer s ++ chunk)) as [line|]; [|discriminate].
  destruct (parseCode line) as [c|] eqn:Hc;
    [|intros [= <-]; left; now exists []].
  intros H.
  assert (G : (c >=? 400) = true -> 400 <= c)
    by (rewrite Z.geb_leb; apply Z.leb_le).
  assert (L : (c >=? 400) = false -> c < 400)
    by (rewrite Z.geb_leb; apply Z.leb_gt).
  destruct (step s =? 0) eqn:E0; [apply Z.eqb_eq in E0|apply Z.eqb_neq in E0].
  { right. exists line, c. split; [exact Hc|].
    destruct (c >=? 400) eqn:E; cbv beta iota in H; injection H as <-.
    - left. repeat split; try lia; auto.
    - right. left. rewrite E0. repeat split; try lia; auto. }
  destruct (step s =? 1) eqn:E1; [apply Z.eqb_eq in E1|apply Z.eqb_neq in E1].
  { right. exists line, c. split; [exact Hc|].
    destruct (c >=? 400) eqn:E; cbv beta iota in H; injection H as <-.
    - left. repeat split; try lia; auto.
    - right. left. rewrite E1. repeat split; try lia; auto. }
  destruct (step s =? 2) eqn:E2; [apply Z.eqb_eq in E2|apply Z.eqb_neq in E2].
  { right. exists line, c. split; [exact Hc|].
    destruct (c >=? 400) eqn:E; cbv beta iota in H; injection H as <-.
    - left. repeat split; try lia; auto.
    - right. left. rewrite E2. repeat split; try lia; auto. }
  destruct (step s =? 3) eqn:E3; [apply Z.eqb_eq in E3|apply Z.eqb_neq in E3].
  { right. exists line, c. split; [exact Hc|].
    right. right. split; [assumption|]. unfold rcpt_outcome.
    destruct ((c >=? 200) && (c <? 300)); cbv beta iota in H;
      [now injection H as <-|].
    destruct ((c >=? 500) && (c <? 600)); now injection H as <-. }
  injection H as <-. left. now exists [].
Qed.

Lemma session0_wf : session_wf cfg targetEmail session0.
Proof.
  unfold session_wf. cbn. repeat split; try lia. constructor.
Qed.

Ltac sess_simpl :=
  cbn [dataBuffer step finished timer promise calls
       set_dataBuffer set_step set_finished log clearTimeout resolve
       socket_write socket_end socket_destroy send fail_step
       success code message rcpt_outcome].

Ltac wf_start s H :=
  destruct s as [buf st fin tm pr cl];
  unfold session_wf in H |- *; sess_simpl; cbn [step calls promise finished] in H;
  destruct H as (Hst & Hperm & Hpr).

Lemma wf_fail_step (s : Session) (c : Z) (line : jsstring) :
  session_wf cfg targetEmail s ->
  parseCode line = Some c -> 400 <= c ->
  session_wf cfg targetEmail (fail_step c line (set_dataBuffer [] s)).
Proof.
  intros H Hc Hge. wf_start s H.
  split; [assumption|]. split.
  { rewrite <- !app_assoc. apply Forall_app. split; [assumption|].
    repeat constructor. }
  destruct pr as [r|].
  - destruct Hpr as (Hf & Hok & Hs). repeat split; try assumption.
    intros Hsucc. destruct (Hs Hsucc) as [rest ->].
    eexists. rewrite <- !app_assoc. reflexivity.
  - split; [reflexivity|]. split.
    + unfold outcome_ok. sess_simpl. exists line. repeat split; try assumption.
      symmetry. apply andb_false_iff. right. apply Z.ltb_ge. lia.
    + sess_simpl. discriminate.
Qed.

Lemma wf_advance (s : Session) :
  session_wf cfg targetEmail s ->
  0 <= step s <= 2 ->
  session_wf cfg targetEmail
    (set_step (step s + 1)
       (send (command_after_step cfg targetEmail (step s))
          (set_dataBuffer [] s))).
Proof.
  intros H Hk. wf_start s H. cbn [step] in Hk.
  assert (E : st = 0 \/ st = 1 \/ st = 2) by lia.
  split; [lia|]. split.
  { apply Forall_app. split; [assumption|].
    constructor; [|constructor]. unfold permitted_call, handshake.
    destruct E as [->|[->| ->]]; cbn [In]; tauto. }
  destruct pr as [r|].
  - destruct Hpr as (Hf & Hok & Hs). repeat split; try assumption.
    intros Hsucc. destruct (Hs Hsucc) as [rest ->].
    eexists. rewrite <- !app_assoc. reflexivity.
  - destruct Hpr as [Hf ->]. split; [assumption|].
    destruct E as [->|[->| ->]]; reflexivity.
Qed.

Lemma wf_rcpt (s : Session) (c : Z) (line : jsstring) :
  session_wf cfg targetEmail s ->
  parseCode line = Some c -> step s = 3 ->
  session_wf cfg targetEmail
    (resolve (rcpt_outcome c line)
       (socket_end None
          (send (str "QUIT")
             (clearTimeout (set_finished true (set_dataBuffer [] s)))))).
Proof.
  intros H Hc Hk. wf_start s H. cbn [step] in Hk. subst st.
  split; [lia|]. split.
  { rewrite <- !app_assoc. apply Forall_app. split; [assumption|].
    repeat constructor; cbn [In]; tauto. }
  destruct pr as [r|].
  - destruct Hpr as (Hf & Hok & Hs). repeat split; try assumption.
    intros Hsucc. destruct (Hs Hsucc) as [rest ->].
    eexists. rewrite <- !app_assoc. reflexivity.
  - destruct Hpr as [Hf ->]. split; [reflexivity|]. split.
    + unfold outcome_ok. sess_simpl. exists line. repeat split; try assumption.
      now rewrite Z.geb_leb.
    + intros _. exists []. unfold full_dialogue, QUIT_LINE.
      change (firstn (Z.to_nat 3) (handshake cfg targetEmail))
        with (handshake cfg targetEmail).
      rewrite app_nil_r, <- !app_assoc. reflexivity.
Qed.

Lemma wf_network_failure (s : Session) (m : jsstring) (extra : list Call) :
  session_wf cfg targetEmail s ->
  finished s = false ->
  Forall (permitted_call cfg targetEmail) extra ->
  forall s',
    step s' = step s ->
    finished s' = true ->
    promise s' = Some {| success := false; code := None; message := Some m |} ->
    calls s' = calls s ++ extra ->
    session_wf cfg targetEmail s'.
Proof.
  intros H Hfin Hextra s' E1 E2 E3 E4. unfold session_wf in *.
  destruct H as (Hst & Hperm & Hpr).
  rewrite E1, E3, E4. split; [assumption|]. split.
  { apply Forall_app. now split. }
  split; [assumption|]. split.
  - unfold outcome_ok. cbn. split; [reflexivity|discriminate].
  - cbn. discriminate.
Qed.

Lemma wf_finished (s : Session) :
  session_wf cfg targetEmail s ->
  finished s = false -> promise s = None.
Proof.
  intros (_ & _ & H) Hf. destruct (promise s); [|reflexivity].
  destruct H as [H _]. congruence.
Qed.

Lemma handle_wf (e : Event) (s s' : Session) :
  session_wf cfg targetEmail s ->
  handle cfg targetEmail e s = inr s' ->
  session_wf cfg targetEmail s'.
Proof.
  intros Hwf H. destruct e as [|chunk|msg|]; cbn [handle] in H.
  - destruct (timer s) eqn:Ht; injection H as <-; try assumption.
    set (s1 := {| dataBuffer := dataBuffer s; step := step s;
                  finished := finished s; timer := Fired;
                  promise := promise s; calls := calls s |}).
    assert (Hwf1 : session_wf cfg targetEmail s1) by exact Hwf.
    unfold on_timeout.
    destruct (finished s1) eqn:Hf; cbn [negb]; [exact Hwf1|].
    pose proof (wf_finished s1 Hwf1 Hf) as Hp.
    eapply (wf_network_failure s1 (str "Timeout")
              [SocketDestroy; Resolve _]); try eassumption;
      try reflexivity.
    + repeat constructor.
    + sess_simpl. now rewrite Hp.
    + sess_simpl. now rewrite <- app_assoc.
  - apply on_data_cases in H
      as [[b ->]|(line & c & Hc & [(Hk & Hge & ->)|[(Hk & Hlt & ->)|(Hk & ->)]])].
    + exact Hwf.
    + now apply wf_fail_step.
    + now apply wf_advance.
    + now apply wf_rcpt.
  - injection H as <-. unfold on_error.
    destruct (finished s) eqn:Hf; [exact Hwf|].
    pose proof (wf_finished s Hwf Hf) as Hp.
    eapply (wf_network_failure s msg [ClearTimeout; Resolve _]);
      try eassumption; try reflexivity.
    + repeat constructor.
    + sess_simpl. now rewrite Hp.
    + sess_simpl. now rewrite <- app_assoc.
  - injection H as <-. unfold on_end.
    destruct (finished s) eqn:Hf; [exact Hwf|].
    pose proof (wf_finished s Hwf Hf) as Hp.
    eapply (wf_network_failure s (str "Connection ended unexpectedly")
              [ClearTimeout; Resolve _]);
      try eassumption; try reflexivity.
    + repeat constructor.
    + sess_simpl. now rewrite Hp.
    + sess_simpl. now rewrite <- app_assoc.
Qed.

Lemma run_wf (evs : list Event) (s s' : Session) :
  session_wf cfg targetEmail s ->
  run cfg targetEmail evs s = inr s' ->
  session_wf cfg targetEmail s'.
Proof.
  revert s. induction evs as [|e evs IH]; intros s Hwf H; cbn [run] in H.
  - now injection H as <-.
  - destruct (handle cfg targetEmail e s) as [x|s1] eqn:He; [discriminate|].
    eapply IH; [|exact H]. eapply handle_wf; eauto.
Qed.

Lemma reachable_wf (s : Session) :
  reachable cfg targetEmail s -> session_wf cfg targetEmail s.
Proof. intros [evs H]. eapply run_wf; [apply session0_wf|exact H]. Qed.

Lemma reachable_inv (s : Session) :
  reachable cfg targetEmail s -> session_inv s.
Proof. intros [evs H]. eapply run_inv; [apply session0_inv|exact H]. Qed.

End SessionShape.

(** X8: while a session is pending it has written exactly the first
    [step] commands of [HELO], [MAIL FROM], [RCPT TO], in that order,
    and has made no other call: nothing is ended, destroyed, cancelled
    or resolved, and the timer is still armed. *)
Theorem pending_session_log
  (cfg : Config) (targetEmail : jsstring) (s : Session) :
  reachable cfg targetEmail s ->
  promise s = None ->
  0 <= step s <= 3 /\
  calls s = List.map SocketWrite
              (firstn (Z.to_nat (step s)) (handshake cfg targetEmail)) /\
  finished s = false /\
  armed s = true.
Proof.
  intros Hr Hp.
  pose proof (reachable_wf cfg targetEmail s Hr) as (Hst & _ & Hw).
  pose proof (reachable_inv cfg targetEmail s Hr) as (_ & Ha & _).
  rewrite Hp in Hw. destruct Hw as [Hf Hc]. auto.
Qed.

Lemma pending_session_log_witness :
  calls awaiting_rcpt
  = List.map SocketWrite (handshake default_config probe_target) /\
  armed awaiting_rcpt = true.
Proof.
  destruct (pending_session_log default_config probe_target awaiting_rcpt)
    as (_ & Hc & _ & Ha).
  - exists [reply "220 mx ready"; reply "250 hello"; reply "250 sender ok"].
    vm_compute. reflexivity.
  - reflexivity.
  - split; [exact Hc|exact Ha].
Defined.

(** X9: a success is only ever reported after the whole handshake.  An
    outcome with [success] true carries a code of [200, 300) parsed from
    its message line, and the calls of the session start with [HELO],
    [MAIL FROM], [RCPT TO], the cancelling of the timer, [QUIT], the end
    of the socket and the resolution, in that order. *)
Theorem success_needs_full_handshake
  (cfg : Config) (targetEmail : jsstring) (s : Session) (r : SmtpResult) :
  reachable cfg targetEmail s ->
  promise s = Some r ->
  success r = true ->
  exists c line rest,
    r = {| success := true; code := Some c; message := Some line |} /\
    200 <= c < 300 /\ parseCode line = Some c /\
    calls s = full_dialogue cfg targetEmail r ++ rest.
Proof.
  intros Hr Hp Hs.
  pose proof (reachable_wf cfg targetEmail s Hr) as (_ & _ & Hw).
  rewrite Hp in Hw. destruct Hw as (_ & Hok & Hd).
  destruct (Hd Hs) as [rest Hrest].
  unfold outcome_ok in Hok. destruct r as [su co me]. cbn in *. subst su.
  destruct co as [c|]; [|destruct Hok; discriminate].
  destruct Hok as (line & -> & Hc & Hb).
  symmetry in Hb. apply andb_true_iff in Hb as [H1 H2].
  apply Z.leb_le in H1. apply Z.ltb_lt in H2.
  exists c, line, rest. repeat split; assumption.
Qed.

Lemma success_needs_full_handshake_witness :
  exists rest,
    calls resolved_accepted
    = full_dialogue default_config probe_target
        {| success := true; code := Some 250;
           message := Some (str "250 recipient ok") |} ++ rest.
Proof.
  destruct (success_needs_full_handshake default_config probe_target
              resolved_accepted
              {| success := true; code := Some 250;
                 message := Some (str "250 recipient ok") |})
    as (c & line & rest & _ & _ & _ & H).
  - exists [reply "220 mx ready"; reply "250 hello"; reply "250 sender ok";
            reply "250 recipient ok"].
    vm_compute. reflexivity.
  - reflexivity.
  - reflexivity.
  - exists rest. exact H.
Defined.

Lemma settled_reachable
  (cfg : Config) (targetEmail : jsstring) (evs : list Event) (r : SmtpResult) :
  smtpVerifyMailbox cfg targetEmail evs = Settled r ->
  exists s, reachable cfg targetEmail s /\ promise s = Some r.
Proof.
  unfold smtpVerifyMailbox.
  destruct (run cfg targetEmail (evs ++ [Timeout]) session0) as [x|s] eqn:E;
    [discriminate|].
  destruct (promise s) as [r'|] eqn:Hp; [|discriminate].
  intros [= <-]. exists s. split; [now exists (evs ++ [Timeout])|assumption].
Qed.

Lemma settled_outcome_ok
  (cfg : Config) (targetEmail : jsstring) (evs : list Event) (r : SmtpResult) :
  smtpVerifyMailbox cfg targetEmail evs = Settled r -> outcome_ok r.
Proof.
  intros H. apply settled_reachable in H as (s & Hr & Hp).
  pose proof (reachable_wf cfg targetEmail s Hr) as (_ & _ & Hw).
  rewrite Hp in Hw. now destruct Hw as (_ & Hok & _).
Qed.

Lemma code_within_200_300 (c : Z) :
  code_within 200 300 (Some c) = (200 <=? c) && (c <? 300).
Proof.
  unfold code_within. rewrite Z.geb_leb.
  destruct (Z.eqb_spec c 0) as [->|]; reflexivity.
Qed.

(** X10: what an outcome of [smtpVerifyMailbox] can be.  Without a code
    it is a non-success with a message; with a code, the message is a
    line that starts with that code.  In both cases [success] is true
    exactly when there is a code of [200, 300): the test of [success]
    in the loop of [verifyEmail] adds nothing to its test of the code. *)
Theorem outcome_shape
  (cfg : Config) (targetEmail : jsstring) (evs : list Event) (r : SmtpResult) :
  smtpVerifyMailbox cfg targetEmail evs = Settled r ->
  outcome_ok r /\
  success r = code_within 200 300 (code r).
Proof.
  intros H. apply settled_outcome_ok in H as Hok.
  split; [exact Hok|].
  unfold outcome_ok in Hok. destruct (code r) as [c|].
  - destruct Hok as (line & _ & _ & ->). now rewrite code_within_200_300.
  - now destruct Hok.
Qed.

Lemma outcome_shape_witness :
  outcome_ok {| success := false; code := Some 550;
                message := Some (str "550 no such user") |}.
Proof.
  apply (outcome_shape default_config probe_target
           [reply "220 mx2 ready"; reply "250 hello"; reply "250 sender ok";
            reply "550 no such user"]).
  vm_compute. reflexivity.
Defined.

(** Every write is one of the four lines of the session. *)
Lemma writes_are_session_lines
  (cfg : Config) (targetEmail : jsstring) (s : Session) :
  reachable cfg targetEmail s ->
  (forall d, In (SocketWrite d) (calls s) ->
             In d (QUIT_LINE :: handshake cfg targetEmail)) /\
  (forall d, In (SocketEnd (Some d)) (calls s) -> d = QUIT_LINE).
Proof.
  intros Hr.
  pose proof (reachable_wf cfg targetEmail s Hr) as (_ & Hperm & _).
  rewrite Forall_forall in Hperm.
  split; intros d Hd; exact (Hperm _ Hd).
Qed.

Lemma line_end_free_app (a b : jsstring) :
  line_end_free a -> line_end_free b -> line_end_free (a ++ b).
Proof.
  intros [Ha1 Ha2] [Hb1 Hb2]. split; intros H; apply in_app_or in H; tauto.
Qed.

Ltac literal_free :=
  split; vm_compute; intros H;
  repeat (destruct H as [H|H]; [discriminate H|]); exact H.

(** An address that passes the format check has no line end. *)
Lemma valid_email_line_end_free (email : jsstring) :
  isEmailFormatValid email = true -> line_end_free email.
Proof.
  intros H. pose proof (email_format_spaces email H) as Hs.
  split; intros Hin; specialize (Hs _ Hin); discriminate Hs.
Qed.

(** X11: a session writes nothing but command lines.  When the
    configured hello domain and probe sender and the target address
    hold no line end (as every address that passes the format check
    does), each [socket.write] of a session is one line, with no line
    end before its final one, that is a [HELO], a [MAIL FROM], a
    [RCPT TO] or the [QUIT] command, and [socket.end] is given the
    [QUIT] line or nothing: no [DATA] and no message content is ever
    written. *)
Theorem only_command_lines_written
  (cfg : Config) (targetEmail : jsstring) (s : Session) :
  reachable cfg targetEmail s ->
  line_end_free (HELLO_DOMAIN cfg) ->
  line_end_free (PROBE_SENDER cfg) ->
  line_end_free targetEmail ->
  (forall d, In (SocketWrite d) (calls s) -> command_line d) /\
  (forall d, In (SocketEnd (Some d)) (calls s) -> d = QUIT_LINE).
Proof.
  intros Hr Hh Hp Ht.
  destruct (writes_are_session_lines cfg targetEmail s Hr) as [Hw He].
  split; [|exact He].
  intros d Hd. apply Hw in Hd.
  destruct Hd as [<-|[<-|[<-|[<-|[]]]]]; unfold command_line.
  - exists (str "QUIT"). split; [reflexivity|]. split; [literal_free|].
    now right; right; right.
  - exists (command_after_step cfg targetEmail 0).
    split; [reflexivity|]. split.
    + apply line_end_free_app; [literal_free|assumption].
    + left. apply startsWith_app.
  - exists (command_after_step cfg targetEmail 1).
    split; [reflexivity|]. split.
    + apply line_end_free_app; [literal_free|].
      apply line_end_free_app; [assumption|literal_free].
    + right. left. apply startsWith_app.
  - exists (command_after_step cfg targetEmail 2).
    split; [reflexivity|]. split.
    + apply line_end_free_app; [literal_free|].
      apply line_end_free_app; [assumption|literal_free].
    + right. right. left. apply startsWith_app.
Qed.

Lemma only_command_lines_written_witness :
  command_line (str "RCPT TO:<user@example.org>" ++ CRLF).
Proof.
  refine (proj1 (only_command_lines_written default_config probe_target
                   resolved_accepted _ _ _ _) _ _).
  - exists [reply "220 mx ready"; reply "250 hello"; reply "250 sender ok";
            reply "250 recipient ok"].
    vm_compute. reflexivity.
  - literal_free.
  - literal_free.
  - apply valid_email_line_end_free. reflexivity.
  - vm_compute. tauto.
Defined.

(** X12: the first outcome wins.  Once the promise is settled, no
    sequence of later events changes its value. *)
Theorem first_outcome_wins
  (cfg : Config) (targetEmail : jsstring)
  (evs : list Event) (s s' : Session) (r : SmtpResult) :
  promise s = Some r ->
  run cfg targetEmail evs s = inr s' ->
  promise s' = Some r.
Proof.
  revert s. induction evs as [|e evs IH]; intros s Hp H; cbn [run] in H.
  - now injection H as <-.
  - destruct (handle cfg targetEmail e s) as [x|s1] eqn:He; [discriminate|].
    apply (IH s1); [|exact H]. eapply settled_is_final; eauto.
Qed.

Lemma first_outcome_wins_witness :
  promise (after [reply "220 mx ready"; reply "250 hello";
                  reply "250 sender ok"; reply "250 recipient ok";
                  reply "221 bye"; Timeout; End])
  = Some {| success := true; code := Some 250;
            message := Some (str "250 recipient ok") |}.
Proof.
  apply (first_outcome_wins default_config probe_target
           [reply "221 bye"; Timeout; End] resolved_accepted).
  - reflexivity.
  - vm_compute. reflexivity.
Defined.

(** X13: after the resolution the expiry of the timer, a socket error
    and the end of the connection change nothing at all: the state,
    with its call log, is the same. *)
Theorem guarded_events_ignored
  (cfg : Config) (targetEmail : jsstring) (e : Event) (s : Session) :
  reachable cfg targetEmail s ->
  promise s <> None ->
  (forall chunk, e <> Data chunk) ->
  handle cfg targetEmail e s = inr s.
Proof.
  intros Hr Hp He.
  pose proof (reachable_wf cfg targetEmail s Hr) as (_ & _ & Hw).
  apply guarded_events_are_noops; try assumption.
  - now apply reachable_inv with (cfg := cfg) (targetEmail := targetEmail).
  - destruct (promise s); [now destruct Hw|congruence].
Qed.

Lemma guarded_events_ignored_witness :
  handle default_config probe_target End resolved_accepted
  = inr resolved_accepted.
Proof.
  apply guarded_events_ignored.
  - exists [reply "220 mx ready"; reply "250 hello"; reply "250 sender ok";
            reply "250 recipient ok"].
    vm_compute. reflexivity.
  - discriminate.
  - discriminate.
Defined.

(** X14: while the session is pending, each of the three network
    failures settles it at once with a non-success that has no code:
    the expiry of the timer with the message [Timeout], a socket error
    with the text of the error, the end of the connection with
    [Connection ended unexpectedly]; and the timer is no longer armed
    afterwards. *)
Theorem network_failure_outcomes
  (cfg : Config) (targetEmail : jsstring) (s : Session) :
  reachable cfg targetEmail s ->
  promise s = None ->
  (exists s', handle cfg targetEmail Timeout s = inr s' /\
     promise s' = Some {| success := false; code := None;
                          message := Some (str "Timeout") |} /\
     armed s' = false) /\
  (forall msg, exists s', handle cfg targetEmail (Error msg) s = inr s' /\
     promise s' = Some {| success := false; code := None;
                          message := Some msg |} /\
     armed s' = false) /\
  (exists s', handle cfg targetEmail End s = inr s' /\
     promise s' = Some {| success := false; code := None;
                          message :=
                            Some (str "Connection ended unexpectedly") |} /\
     armed s' = false).
Proof.
  intros Hr Hp. apply network_failures_resolve; [|assumption].
  now apply reachable_inv with (cfg := cfg) (targetEmail := targetEmail).
Qed.

Lemma network_failure_outcomes_witness :
  exists s',
    handle default_config probe_target End awaiting_rcpt = inr s' /\
    promise s' = Some {| success := false; code := None;
                         message :=
                           Some (str "Connection ended unexpectedly") |}.
Proof.
  destruct (network_failure_outcomes default_config probe_target awaiting_rcpt)
    as (_ & _ & s' & H1 & H2 & _).
  - exists [reply "220 mx ready"; reply "250 hello"; reply "250 sender ok"].
    vm_compute. reflexivity.
  - reflexivity.
  - exists s'. split; assumption.
Defined.

(** ** Whole dialogues *)

Lemma endsWith_CRLF_has_LF (b : jsstring) :
  JsString.endsWith b CRLF = true -> In LF b.
Proof.
  unfold JsString.endsWith. intros H. apply in_rev.
  change (rev CRLF) with [LF; CR] in H.
  destruct (rev b) as [|x l]; [discriminate|].
  cbn [JsString.startsWith] in H.
  apply andb_true_iff in H as [H _]. apply N.eqb_eq in H. now left.
Qed.

Lemma run_without_line_end
  (cfg : Config) (targetEmail : jsstring) (evs : list Event) :
  Forall no_line_end evs ->
  forall s, ~ In LF (dataBuffer s) ->
  exists b, ~ In LF b /\ run cfg targetEmail evs s = inr (set_dataBuffer b s).
Proof.
  induction 1 as [|e evs He _ IH]; intros s Hb.
  - exists (dataBuffer s). split; [assumption|]. now destruct s.
  - destruct e as [|chunk| |]; try contradiction. cbn in He.
    assert (Hn : ~ In LF (dataBuffer s ++ chunk)).
    { intros Hin. apply in_app_or in Hin. tauto. }
    cbn [run handle]. rewrite on_data_buffers.
    + destruct (IH (set_dataBuffer (dataBuffer s ++ chunk) s) Hn)
        as (b & Hb' & Hrun).
      exists b. split; [assumption|]. exact Hrun.
    + destruct (JsString.endsWith (dataBuffer s ++ chunk) CRLF) eqn:E;
        [|reflexivity].
      apply endsWith_CRLF_has_LF in E. contradiction.
Qed.

(** X16: the client never speaks first.  If the server sends bytes but
    never a line feed, nothing is written to it; when the timer expires
    the socket is destroyed and the outcome is [Timeout], without a
    code. *)
Theorem silent_server_times_out
  (cfg : Config) (targetEmail : jsstring) (evs : list Event) :
  Forall no_line_end evs ->
  smtpVerifyMailbox cfg targetEmail evs = Settled timeout_outcome /\
  exists b,
    run cfg targetEmail (evs ++ [Timeout]) session0
    = inr {| dataBuffer := b; step := 0; finished := true; timer := Fired;
             promise := Some timeout_outcome;
             calls := [SocketDestroy; Resolve timeout_outcome] |}.
Proof.
  intros H.
  destruct (run_without_line_end cfg targetEmail evs H session0)
    as (b & _ & Hrun); [intros []|].
  assert (E : run cfg targetEmail (evs ++ [Timeout]) session0
              = inr {| dataBuffer := b; step := 0; finished := true;
                       timer := Fired; promise := Some timeout_outcome;
                       calls := [SocketDestroy; Resolve timeout_outcome] |}).
  { rewrite run_app, Hrun. reflexivity. }
  split; [|now exists b].
  unfold smtpVerifyMailbox. now rewrite E.
Qed.

Lemma silent_server_times_out_witness :
  smtpVerifyMailbox default_config probe_target
    [Data (str "220 mx"); Data (str " is getting ready")]
  = Settled timeout_outcome.
Proof.
  apply silent_server_times_out.
  repeat constructor; vm_compute; intros H;
    repeat (destruct H as [H|H]; [discriminate H|]); exact H.
Defined.

(** What the data handler does with a reply of one line, received
    whole into an empty buffer. *)
Lemma on_data_line
  (cfg : Config) (targetEmail : jsstring) (s : Session)
  (line : jsstring) (c : Z) :
  dataBuffer s = [] ->
  parseCode line = Some c ->
  ~ In CR line ->
  (0 <= step s <= 2 -> c < 400 ->
   on_data cfg targetEmail (line ++ CRLF) s
   = inr (set_step (step s + 1)
            (send (command_after_step cfg targetEmail (step s))
               (set_dataBuffer [] s)))) /\
  (step s = 3 ->
   on_data cfg targetEmail (line ++ CRLF) s
   = inr (resolve (rcpt_outcome c line)
            (socket_end None
               (send (str "QUIT")
                  (clearTimeout (set_finished true (set_dataBuffer [] s))))))).
Proof.
  intros Hb Hc Hcr.
  assert (Hne : line <> []).
  { intros ->. discriminate Hc. }
  destruct (lastLineOf_single line Hne Hcr) as [He Hl].
  split.
  - intros Hk Hlt.
    unfold on_data. cbn [dataBuffer set_dataBuffer step].
    rewrite Hb. cbn [app]. rewrite He, Hl, Hc. cbn [negb].
    assert (G : (c >=? 400) = false)
      by (rewrite Z.geb_leb; apply Z.leb_gt; lia).
    rewrite G.
    assert (K : step s = 0 \/ step s = 1 \/ step s = 2) by lia.
    destruct K as [K|[K|K]]; rewrite K; reflexivity.
  - intros Hk.
    unfold on_data. cbn [dataBuffer set_dataBuffer step].
    rewrite Hb. cbn [app]. rewrite He, Hl, Hc, Hk. cbn [negb Z.eqb Pos.eqb].
    unfold rcpt_outcome.
    destruct ((c >=? 200) && (c <? 300)); [reflexivity|].
    destruct ((c >=? 500) && (c <? 600)); reflexivity.
Qed.

(** X17: the four steps compose.  When the server answers the
    connection and each command with one line, the first three with
    codes below 400, the session writes [HELO], [MAIL FROM], [RCPT TO]
    and [QUIT], in this order and nothing else, and resolves with the
    code and the line of the fourth reply: a success exactly when that
    code is of [200, 300). *)
Theorem complete_dialogue
  (cfg : Config) (targetEmail : jsstring)
  (l0 l1 l2 l3 : jsstring) (c0 c1 c2 c3 : Z) :
  parseCode l0 = Some c0 -> parseCode l1 = Some c1 ->
  parseCode l2 = Some c2 -> parseCode l3 = Some c3 ->
  ~ In CR l0 -> ~ In CR l1 -> ~ In CR l2 -> ~ In CR l3 ->
  c0 < 400 -> c1 < 400 -> c2 < 400 ->
  run cfg targetEmail
    [Data (l0 ++ CRLF); Data (l1 ++ CRLF); Data (l2 ++ CRLF);
     Data (l3 ++ CRLF)] session0
  = inr {| dataBuffer := []; step := 3; finished := true; timer := Cleared;
           promise := Some (rcpt_outcome c3 l3);
           calls := full_dialogue cfg targetEmail (rcpt_outcome c3 l3) |} /\
  smtpVerifyMailbox cfg targetEmail
    [Data (l0 ++ CRLF); Data (l1 ++ CRLF); Data (l2 ++ CRLF);
     Data (l3 ++ CRLF)]
  = Settled (rcpt_outcome c3 l3).
Proof.
  intros P0 P1 P2 P3 R0 R1 R2 R3 H0 H1 H2.
  assert (E : run cfg targetEmail
                [Data (l0 ++ CRLF); Data (l1 ++ CRLF); Data (l2 ++ CRLF);
                 Data (l3 ++ CRLF)] session0
              = inr {| dataBuffer := []; step := 3; finished := true;
                       timer := Cleared;
                       promise := Some (rcpt_outcome c3 l3);
                       calls := full_dialogue cfg targetEmail
                                  (rcpt_outcome c3 l3) |}).
  { cbn [run handle].
    destruct (on_data_line cfg targetEmail session0 l0 c0 eq_refl P0 R0)
      as [E0 _].
    rewrite E0 by (cbn; lia). clear E0.
    set (s1 := set_step _ _).
    destruct (on_data_line cfg targetEmail s1 l1 c1 eq_refl P1 R1) as [E1 _].
    rewrite E1 by (cbn; lia). clear E1.
    set (s2 := set_step _ _).
    destruct (on_data_line cfg targetEmail s2 l2 c2 eq_refl P2 R2) as [E2 _].
    rewrite E2 by (cbn; lia). clear E2.
    set (s3 := set_step _ _).
    destruct (on_data_line cfg targetEmail s3 l3 c3 eq_refl P3 R3) as [_ E3].
    rewrite E3 by reflexivity. reflexivity. }
  split; [exact E|].
  unfold smtpVerifyMailbox. rewrite run_app, E. reflexivity.
Qed.

Ltac no_cr :=
  vm_compute; intros H;
  repeat (destruct H as [H|H]; [discriminate H|]); exact H.

Lemma complete_dialogue_witness :
  smtpVerifyMailbox default_config probe_target
    [reply "220 mx ready"; reply "250 hello"; reply "250 sender ok";
     reply "550 no such user"]
  = Settled {| success := false; code := Some 550;
               message := Some (str "550 no such user") |}.
Proof.
  refine (proj2 (complete_dialogue default_config probe_target
                   (str "220 mx ready") (str "250 hello")
                   (str "250 sender ok") (str "550 no such user")
                   220 250 250 550
                   eq_refl eq_refl eq_refl eq_refl _ _ _ _ _ _ _));
    try no_cr; lia.
Defined.

(** ** The result of [verifyEmail] *)

Section ResultFacts.

Variable cfg : Config.
Variable net : Network.
Variable email : jsstring.

Lemma probeLoop_never_hangs (mxRecords : list MxRecord) (n : nat) :
  fst (probeLoop cfg net email n mxRecords) <> Hangs.
Proof.
  revert n. induction mxRecords as [|mx rest IH]; intros n; cbn [probeLoop].
  - discriminate.
  - destruct (smtpVerifyMailbox _ _ _) as [r| |e] eqn:E.
    + destruct (success r && code_within 200 300 (code r)); [discriminate|].
      destruct (code_within 500 600 (code r)); [discriminate|].
      specialize (IH (S n)).
      now destruct (probeLoop cfg net email (S n) rest).
    + exfalso. revert E. apply smtpVerifyMailbox_settles.
    + discriminate.
Qed.

Lemma probeLoop_result_ok (mxRecords : list MxRecord) (n : nat)
  (r : VerifyResult) :
  fst (probeLoop cfg net email n mxRecords) = Returns r ->
  result_ok r /\
  status r <> no_mx /\ status r <> invalid_format /\
  (status r = unknown \/
   exists mx, In mx mxRecords /\ smtpHostTried r = Some (exchange mx)).
Proof.
  revert n. induction mxRecords as [|mx rest IH]; intros n; cbn [probeLoop].
  - intros [= <-]. unfold result_ok. cbn.
    repeat split; try discriminate; auto.
  - destruct (smtpVerifyMailbox _ _ _) as [res| |e] eqn:E; try discriminate.
    pose proof (settled_outcome_ok _ _ _ _ E) as Hok.
    destruct (success res && code_within 200 300 (code res)) eqn:E1.
    { intros [= <-]. apply accepted_iff in E1 as [_ (c & Hc & Hb)].
      unfold outcome_ok in Hok. rewrite Hc in Hok.
      destruct Hok as (line & Hm & Hp & _).
      unfold result_ok. cbn.
      repeat split; try discriminate; auto.
      - exists (exchange mx), c, line. repeat split; auto; lia.
      - right. exists mx. split; [now left|reflexivity]. }
    destruct (code_within 500 600 (code res)) eqn:E2.
    { intros [= <-]. apply rejected_iff in E2 as (c & Hc & Hb).
      unfold outcome_ok in Hok. rewrite Hc in Hok.
      destruct Hok as (line & Hm & Hp & _).
      unfold result_ok. cbn.
      repeat split; try discriminate; auto.
      - exists (exchange mx), c, line. repeat split; auto; lia.
      - right. exists mx. split; [now left|reflexivity]. }
    specialize (IH (S n)).
    destruct (probeLoop cfg net email (S n) rest) as [o l]. cbn [fst] in *.
    intros Ho. destruct (IH Ho) as (H1 & H2 & H3 & [H4|(mx' & Hin & Hh)]).
    + split; [exact H1|]. split; [exact H2|]. split; [exact H3|]. now left.
    + split; [exact H1|]. split; [exact H2|]. split; [exact H3|].
      right. exists mx'. split; [now right|assumption].
Qed.

End ResultFacts.

Lemma verifyEmail_no_hang
  (cfg : Config) (net : Network) (email : jsstring) :
  fst (verifyEmail cfg net email) <> Hangs.
Proof.
  unfold verifyEmail.
  destruct (isEmailFormatValid email); cbn [negb]; [|discriminate].
  destruct (getDomain email) as [domain|]; [|discriminate].
  destruct (resolveMx (dns_reply net domain)) as [err|mxRecords];
    [discriminate|].
  pose proof (probeLoop_never_hangs cfg net email mxRecords O) as H.
  now destruct (probeLoop cfg net email O mxRecords).
Qed.

Lemma verifyEmail_crash_after_query
  (cfg : Config) (net : Network) (email : jsstring) (e : Exn)
  (l : list NetAccess) :
  verifyEmail cfg net email = (Crashes e, l) -> l <> [].
Proof.
  unfold verifyEmail.
  destruct (isEmailFormatValid email); cbn [negb]; [|discriminate].
  destruct (getDomain email) as [domain|]; [|discriminate].
  destruct (resolveMx (dns_reply net domain)) as [err|mxRecords];
    [discriminate|].
  destruct (probeLoop cfg net email O mxRecords) as [o l'].
  intros [= _ <-]. discriminate.
Qed.

(** X15: with a configured port that [net.createConnection] accepts,
    [verifyEmail] never hangs.  Whatever the resolver and the servers
    do, every probe settles, by its timer at the latest, so the call
    returns a result, unless a socket handler throws.  (For a port
    outside 0..65535 the connection call throws and [verifyEmail]
    throws; that case is left out.) *)
Theorem verifyEmail_never_hangs
  (cfg : Config) (net : Network) (email : jsstring) :
  port_accepted (SMTP_PORT cfg) = true ->
  (exists r, fst (verifyEmail cfg net email) = Returns r) \/
  (exists e, fst (verifyEmail cfg net email) = Crashes e).
Proof.
  intros _.
  pose proof (verifyEmail_no_hang cfg net email) as H.
  destruct (fst (verifyEmail cfg net email)) as [r| |e]; eauto.
  congruence.
Qed.

Lemma verifyEmail_never_hangs_witness :
  (exists r, fst (verifyEmail default_config mock_net probe_target)
             = Returns r) \/
  (exists e, fst (verifyEmail default_config mock_net probe_target)
             = Crashes e).
Proof.
  exact (verifyEmail_never_hangs default_config mock_net probe_target eq_refl).
Defined.

(** X18: a domain without mail exchanger.  When the resolver fails, or
    answers without records, a well-formed address gets [no_mx] with
    [valid] false and the text of the error ([No MX records] for an
    empty answer) after the one DNS query and no connection at all; and
    [no_mx] is never the result when the resolver gave a record. *)
Theorem no_mx_without_probe
  (cfg : Config) (net : Network) (email domain : jsstring) :
  isEmailFormatValid email = true ->
  getDomain email = Some domain ->
  match dns_reply net domain with
  | DnsFailure err =>
      verifyEmail cfg net email
      = (Returns (no_mx_result (error_text err)), [DnsQuery domain])
  | DnsAddresses None
  | DnsAddresses (Some []) =>
      verifyEmail cfg net email
      = (Returns (no_mx_result (str "No MX records")), [DnsQuery domain])
  | DnsAddresses (Some (_ :: _)) =>
      forall r, fst (verifyEmail cfg net email) = Returns r ->
                status r <> no_mx
  end.
Proof.
  intros Hv Hd. unfold verifyEmail. rewrite Hv, Hd. cbn [negb].
  destruct (dns_reply net domain) as [err|[[|a addresses]|]];
    try reflexivity.
  cbn [resolveMx].
  pose proof (probeLoop_result_ok cfg net email
                (Array_sort (a :: addresses)) O) as H.
  destruct (probeLoop cfg net email O (Array_sort (a :: addresses))) as [o l].
  cbn [fst] in *. intros r Hr. now destruct (H r Hr) as (_ & Hn & _).
Qed.

(** X19: the fields of the returned object go together, whatever the
    network does.  [valid] is true exactly for [deliverable];
    [deliverable] comes with a host, a code of [200, 300) and the reply
    line that starts with this code, [undeliverable] with a host, a
    code of [500, 600) and its line; the other statuses come with a
    reason and without host, code or message. *)
Theorem verify_result_shape
  (cfg : Config) (net : Network) (email : jsstring) (r : VerifyResult) :
  fst (verifyEmail cfg net email) = Returns r ->
  result_ok r.
Proof.
  unfold verifyEmail.
  destruct (isEmailFormatValid email); cbn [negb].
  2:{ intros [= <-]. unfold result_ok. cbn.
      repeat split; try discriminate; auto. }
  destruct (getDomain email) as [domain|].
  2:{ intros [= <-]. unfold result_ok. cbn.
      repeat split; try discriminate; auto. }
  destruct (resolveMx (dns_reply net domain)) as [err|mxRecords].
  { intros [= <-]. unfold result_ok. cbn.
    repeat split; try discriminate; auto. }
  pose proof (probeLoop_result_ok cfg net email mxRecords O) as H.
  destruct (probeLoop cfg net email O mxRecords) as [o l]. cbn [fst] in *.
  intros Hr. now destruct (H r Hr).
Qed.

Lemma no_mx_without_probe_witness :
  verifyEmail default_config dead_net probe_target
  = (Returns (no_mx_result (str "queryMx ENOTFOUND example.org")),
     [DnsQuery (str "example.org")]).
Proof.
  exact (no_mx_without_probe default_config dead_net probe_target
           (str "example.org") eq_refl eq_refl).
Defined.

Lemma verify_result_shape_witness :
  result_ok (undeliverable_at mx2
               {| success := false; code := Some 550;
                  message := Some (str "550 no such user") |}).
Proof.
  apply (verify_result_shape default_config mock_net probe_target).
  vm_compute. reflexivity.
Defined.

(** X20: the host that is reported is one the resolver named.  When the
    returned object has [smtpHostTried], the address was well formed,
    the resolver answered with records for its domain, and the host is
    the exchange of one of them. *)
Theorem host_tried_was_resolved
  (cfg : Config) (net : Network) (email host : jsstring) (r : VerifyResult) :
  fst (verifyEmail cfg net email) = Returns r ->
  smtpHostTried r = Some host ->
  isEmailFormatValid email = true /\
  exists domain addresses mx,
    getDomain email = Some domain /\
    dns_reply net domain = DnsAddresses (Some addresses) /\
    In mx addresses /\ host = exchange mx.
Proof.
  unfold verifyEmail.
  destruct (isEmailFormatValid email); cbn [negb];
    [|intros [= <-]; discriminate].
  destruct (getDomain email) as [domain|]; [|intros [= <-]; discriminate].
  destruct (dns_reply net domain) as [err|[[|a addresses]|]] eqn:Hdns;
    cbn [resolveMx]; try (intros [= <-]; discriminate).
  pose proof (probeLoop_result_ok cfg net email
                (Array_sort (a :: addresses)) O) as H.
  destruct (probeLoop cfg net email O (Array_sort (a :: addresses))) as [o l].
  cbn [fst] in *. intros Hr Hh.
  destruct (H r Hr) as ([_ Hok] & _ & _ & [Hu|(mx & Hin & Hmx)]).
  - rewrite Hu in Hok. destruct Hok as [Hnone _]. congruence.
  - split; [reflexivity|]. exists domain, (a :: addresses), mx.
    split; [reflexivity|]. split; [exact Hdns|]. split.
    + eapply Permutation_in; [|exact Hin]. symmetry. apply Array_sort_perm.
    + congruence.
Qed.

Lemma host_tried_was_resolved_witness :
  exists domain addresses mx,
    getDomain probe_target = Some domain /\
    dns_reply mock_net domain = DnsAddresses (Some addresses) /\
    In mx addresses /\ exchange mx2 = exchange mx.
Proof.
  refine (proj2 (host_tried_was_resolved default_config mock_net probe_target
                   (exchange mx2)
                   (undeliverable_at mx2
                      {| success := false; code := Some 550;
                         message := Some (str "550 no such user") |}) _ _)).
  - vm_compute. reflexivity.
  - reflexivity.
Defined.

(** ** More on [resolveMx] *)

(** X21: [resolveMx] resolves only with what the resolver gave, never
    with an empty list, and it keeps the resolver's order among records
    of the same priority. *)
Theorem resolveMx_keeps_ties_in_order
  (reply : DnsReply) (mxRecords : list MxRecord) :
  resolveMx reply = inr mxRecords ->
  mxRecords <> [] /\
  exists addresses,
    reply = DnsAddresses (Some addresses) /\
    List.length mxRecords = List.length addresses /\
    forall p, filter (fun r => priority r =? p) mxRecords
              = filter (fun r => priority r =? p) addresses.
Proof.
  destruct reply as [err|[[|a addresses]|]]; cbn [resolveMx];
    try discriminate.
  intros [= <-].
  change (sort_insert a (Array_sort addresses))
    with (Array_sort (a :: addresses)).
  split; [apply Array_sort_nonempty; discriminate|].
  exists (a :: addresses). split; [reflexivity|]. split.
  - symmetry. apply Permutation_length, Array_sort_perm.
  - intros p. apply Array_sort_stable.
Qed.

Lemma resolveMx_keeps_ties_in_order_witness :
  resolveMx (DnsAddresses (Some [mx2; tie_first; tie_second]))
  = inr [tie_first; tie_second; mx2] /\
  filter (fun r => priority r =? 10) [tie_first; tie_second; mx2]
  = [tie_first; tie_second].
Proof.
  split; [reflexivity|].
  destruct (resolveMx_keeps_ties_in_order
              (DnsAddresses (Some [mx2; tie_first; tie_second]))
              [tie_first; tie_second; mx2] eq_refl)
    as (_ & addresses & E & _ & H).
  injection E as <-. exact (H 10).
Defined.

(** X22: an answer that is already in ascending order of priority is
    resolved as it is. *)
Theorem sorted_answer_unchanged (addresses : list MxRecord) :
  addresses <> [] ->
  StronglySorted by_priority addresses ->
  resolveMx (DnsAddresses (Some addresses)) = inr addresses.
Proof.
  intros Hne Hs. destruct addresses as [|a addresses]; [congruence|].
  cbn [resolveMx]. f_equal. symmetry.
  now apply stable_sort_is_Array_sort.
Qed.

Lemma sorted_answer_unchanged_witness :
  resolveMx (DnsAddresses (Some [mx1; mx2])) = inr [mx1; mx2].
Proof.
  apply sorted_answer_unchanged; [discriminate|].
  repeat constructor; unfold by_priority; cbn; lia.
Defined.

(** ** The HTTP handler *)

Lemma trimStart_blank (s : jsstring) : blank s -> trimStart s = [].
Proof.
  induction s as [|c s IH]; intros H; [reflexivity|].
  cbn [trimStart]. rewrite (H c) by now left.
  apply IH. intros x Hx. apply H. now right.
Qed.

Lemma trimStart_app_blank (pre s : jsstring) :
  blank pre -> trimStart (pre ++ s) = trimStart s.
Proof.
  induction pre as [|c pre IH]; intros H; [reflexivity|].
  cbn [app trimStart]. rewrite (H c) by now left.
  apply IH. intros x Hx. apply H. now right.
Qed.

Lemma blank_rev (s : jsstring) : blank s -> blank (rev s).
Proof. intros H c Hc. apply H. now apply in_rev. Qed.

Lemma trimEnd_app_blank (s post : jsstring) :
  blank post -> trimEnd (s ++ post) = trimEnd s.
Proof.
  intros H. unfold trimEnd. rewrite rev_app_distr.
  now rewrite trimStart_app_blank by now apply blank_rev.
Qed.

Lemma trim_blank (s : jsstring) : blank s -> trim s = [].
Proof. intros H. unfold trim. now rewrite trimStart_blank. Qed.

Lemma trim_padding (pre s post : jsstring) :
  blank pre -> blank post -> trim (pre ++ s ++ post) = trim s.
Proof.
  intros Hpre Hpost. unfold trim. rewrite trimStart_app_blank by assumption.
  clear Hpre pre. induction s as [|c s IH].
  - cbn [app]. now rewrite trimStart_blank.
  - cbn [app trimStart]. destruct (is_space c); [exact IH|].
    change (c :: s ++ post) with ((c :: s) ++ post).
    now rewrite trimEnd_app_blank.
Qed.

Lemma trimStart_head (s : jsstring) :
  match trimStart s with
  | [] => True
  | c :: _ => is_space c = false
  end.
Proof.
  induction s as [|c s IH]; [exact I|].
  cbn [trimStart]. destruct (is_space c) eqn:E; [exact IH|exact E].
Qed.

Lemma trimStart_suffix (s : jsstring) :
  exists pre, blank pre /\ s = pre ++ trimStart s.
Proof.
  induction s as [|c s (pre & Hb & IH)].
  - exists []. split; [intros ? []|reflexivity].
  - cbn [trimStart]. destruct (is_space c) eqn:E.
    + exists (c :: pre). split.
      * intros x [<-|Hx]; [exact E|now apply Hb].
      * cbn [app]. now rewrite <- IH.
    + exists []. split; [intros ? []|reflexivity].
Qed.

(** X23: a missing or blank address is refused without touching the
    network.  When the [email] field is absent, falsy, or turns into a
    string of whitespace only, the handler answers 400 with
    [Missing email field] and makes no DNS query and no connection. *)
Theorem blank_email_refused
  (cfg : Config) (net : Network) (field : EmailField) (text : jsstring) :
  email_text field = inr text ->
  blank text ->
  post_verify cfg net field
  = (Responds {| statusCode := 400;
                 body := ErrorBody (str "Missing email field") None |},
     []).
Proof.
  intros Ht Hb. unfold post_verify. rewrite Ht. cbv zeta.
  now rewrite trim_blank.
Qed.

Lemma blank_email_refused_witness :
  post_verify default_config mock_net Absent
  = (Responds {| statusCode := 400;
                 body := ErrorBody (str "Missing email field") None |},
     []) /\
  post_verify default_config mock_net (Text [32%N; 9%N; 10%N])
  = (Responds {| statusCode := 400;
                 body := ErrorBody (str "Missing email field") None |},
     []).
Proof.
  split.
  - apply (blank_email_refused default_config mock_net Absent []);
      [reflexivity|intros ? []].
  - apply (blank_email_refused default_config mock_net
             (Text [32%N; 9%N; 10%N]) [32%N; 9%N; 10%N]); [reflexivity|].
    intros c [<-|[<-|[<-|[]]]]; reflexivity.
Defined.

(** X24: whitespace around the address does not matter.  The handler
    does the same, response and network accesses, for an address and
    for the address with whitespace before and after it. *)
Theorem padding_ignored
  (cfg : Config) (net : Network) (pre s post : jsstring) :
  blank pre -> blank post ->
  post_verify cfg net (Text (pre ++ s ++ post)) = post_verify cfg net (Text s).
Proof.
  intros Hpre Hpost. unfold post_verify. cbn [email_text]. cbv zeta.
  now rewrite trim_padding.
Qed.

Lemma padding_ignored_witness :
  post_verify default_config dead_net
    (Text ([32%N] ++ probe_target ++ [13%N; 10%N]))
  = post_verify default_config dead_net (Text probe_target).
Proof.
  apply padding_ignored.
  - intros c [<-|[]]. reflexivity.
  - intros c [<-|[<-|[]]]; reflexivity.
Defined.

(** X25: what the handler answers when the configured port is one
    that [net.createConnection] accepts.  It never leaves a request
    without an answer unless a socket handler throws, which can only
    happen after the DNS query.  An answer with status 200 carries the
    trimmed address, which is not empty and does not start with
    whitespace, and what [verifyEmail] returned for it; an answer with
    another status is a 400 or a 500 and was sent without any network
    access.  (For a port outside 0..65535 the connection call throws
    after the DNS query and the answer is a 500; that case is left
    out.) *)
Theorem handler_answers
  (cfg : Config) (net : Network) (field : EmailField) :
  port_accepted (SMTP_PORT cfg) = true ->
  answer_ok cfg net field.
Proof.
  intros _. unfold answer_ok.
  unfold post_verify. destruct (email_text field) as [err|text] eqn:Ht.
  { right. cbn. auto. }
  cbv zeta. destruct (trim text) as [|c rest] eqn:Etrim.
  { right. cbn. auto. }
  assert (Hc : is_space c = false).
  { unfold trim, trimEnd in Etrim.
    destruct (trimStart_suffix (rev (trimStart text))) as (pre & Hb & Hrev).
    apply (f_equal (@rev char)) in Hrev.
    rewrite rev_involutive, rev_app_distr, Etrim in Hrev.
    pose proof (trimStart_head text) as Hh. rewrite Hrev in Hh.
    exact Hh. }
  pose proof (verifyEmail_no_hang cfg net (c :: rest)) as Hn.
  destruct (verifyEmail cfg net (c :: rest)) as [[result| |e] l] eqn:Ev;
    cbn [fst] in *.
  - left. cbn. split; [reflexivity|].
    exists text, c, rest, result. repeat split; auto.
  - congruence.
  - eapply verifyEmail_crash_after_query. exact Ev.
Qed.

Lemma handler_answers_witness :
  answer_ok default_config mock_net (Text probe_target).
Proof.
  exact (handler_answers default_config mock_net (Text probe_target) eq_refl).
Defined.

(** ** The dialogue on the connection *)








